(** * DailyNest: a shallow embedding of [app.py]

    The Flask application keeps two tables (users, activities) in a
    relational store and serves eight routes.  The tables are modelled as
    lists in insertion (rowid) order, every handler as a function of the
    store, the login session and the request, and the queries with the
    list operations the ORM calls stand for.

    What the application takes from its environment (Python's string
    methods and [float], the e-mail syntax checker, werkzeug's password
    hashing, [datetime.isoformat]) is a parameter of the development,
    gathered in the class [Platform]. *)

From Stdlib Require Import List String Ascii ZArith Bool Lia Permutation Sorted.
From Stdlib Require Import DecimalString.
Import ListNotations.
Open Scope string_scope.

Set Implicit Arguments.

(** ** The environment *)

Class Platform : Type := {
  (** Python's [float] values. *)
  float : Type;
  (** [str.lower]. *)
  str_lower : string -> string;
  (** [str.strip]. *)
  str_strip : string -> string;
  (** [float(s)]; [None] stands for [ValueError]. *)
  py_float : string -> option float;
  (** [email_validator.validate_email] as the [Email()] validator calls it;
      [false] stands for [EmailNotValidError]. *)
  validate_email : string -> bool;
  (** [werkzeug.security.generate_password_hash]; the first argument is the
      random salt it draws. *)
  generate_password_hash : string -> string -> string;
  (** [werkzeug.security.check_password_hash pwhash password]. *)
  check_password_hash : string -> string -> bool;
  (** [datetime.isoformat]. *)
  isoformat : Z -> string
}.

(** ** Models *)

Module User.
Record t : Type := {
  id : Z;
  name : string;
  email : string;
  password_hash : string;
  bio : option string;
  created_at : Z
}.
End User.

Module Activity.
(** [is_public] and [created_at] have column defaults, so a row written
    through the ORM always holds a value there; the other nullable
    columns are options.  Timestamps are microseconds since the epoch. *)
Record t `{Platform} : Type := {
  id : Z;
  user_id : Z;
  title : string;
  description : option string;
  is_public : bool;
  mood : option string;
  category : option string;
  latitude : option float;
  longitude : option float;
  location_text : option string;
  created_at : Z
}.
End Activity.

(** ** Forms: the data of each field after [process] *)

Inductive FieldError : Type :=
| ErrRequired            (* DataRequired *)
| ErrEmail               (* Email *)
| ErrLength              (* Length *)
| ErrEqualTo             (* EqualTo *)
| ErrFloat               (* FloatField: not a valid float value *)
| ErrCsrf.               (* the CSRF token of FlaskForm *)

Module RegisterForm.
Record t : Type := {
  name : option string;
  email : option string;
  password : option string;
  confirm : option string
}.
End RegisterForm.

Module LoginForm.
Record t : Type := {
  email : option string;
  password : option string
}.
End LoginForm.

Module ActivityForm.
(** A [FloatField] also keeps the errors of [process_formdata]. *)
Record t `{Platform} : Type := {
  title : option string;
  description : option string;
  is_public : bool;
  mood : option string;
  category : option string;
  latitude : option float;
  latitude_process_errors : list FieldError;
  longitude : option float;
  longitude_process_errors : list FieldError;
  location_text : option string
}.
End ActivityForm.

Section App.
Context `{PF : Platform}.

Record Store : Type := {
  users : list User.t;
  activities : list Activity.t
}.

(** The login session: the id flask_login keeps under [_user_id]. *)
Definition Session : Type := option Z.

(** ** Queries *)

(** [Model.query.get(pk)]. *)
Definition get_user (st : Store) (pk : Z) : option User.t :=
  find (fun u => Z.eqb (User.id u) pk) (users st).

(** [User.query.filter_by(email=e)]. *)
Definition filter_by_email (e : string) (us : list User.t) : list User.t :=
  filter (fun u => String.eqb (User.email u) e) us.

(** [.first()]. *)
Definition first {A : Type} (l : list A) : option A := hd_error l.

(** [.limit(n)]. *)
Definition limit {A : Type} (n : nat) (l : list A) : list A := firstn n l.

(** [Activity.query.filter_by(is_public=True)]. *)
Definition filter_by_public (l : list Activity.t) : list Activity.t :=
  filter (fun a => Activity.is_public a) l.

(** [Activity.query.filter_by(user_id=uid)]. *)
Definition filter_by_user (uid : Z) (l : list Activity.t) : list Activity.t :=
  filter (fun a => Z.eqb (Activity.user_id a) uid) l.

(** [.order_by(Activity.created_at.desc())]: an insertion sort on the
    timestamp, newest first.  Rows with equal timestamps keep their table
    order here; the database leaves their order open, and no statement
    below depends on it. *)
Fixpoint insert_desc (a : Activity.t) (l : list Activity.t) : list Activity.t :=
  match l with
  | [] => [a]
  | b :: l' =>
      if (Activity.created_at b <=? Activity.created_at a)%Z
      then a :: b :: l'
      else b :: insert_desc a l'
  end.

Fixpoint order_by_created_at_desc (l : list Activity.t) : list Activity.t :=
  match l with
  | [] => []
  | a :: l' => insert_desc a (order_by_created_at_desc l')
  end.

(** The primary key the store gives a new row: one more than the largest
    key in the table. *)
Definition next_id (ids : list Z) : Z :=
  (fold_right Z.max 0 ids + 1)%Z.

(** ** Responses *)

Inductive Endpoint : Type := EpHome | EpRegister | EpLogin.

(** [form.errors]: the fields that have errors, with their errors. *)
Definition FormErrors : Type := list (string * list FieldError).

(** One entry of the JSON array of [/api/feed]. *)
Record FeedItem : Type := {
  item_id : Z;
  item_user : string;
  item_title : string;
  item_description : option string;
  item_mood : option string;
  item_category : option string;
  item_lat : option float;
  item_lng : option float;
  item_location_text : option string;
  item_created_at : string
}.

Inductive Response : Type :=
| Redirect (target : Endpoint)
| RenderHome (feed : list Activity.t)
| RenderRegister (errors : FormErrors)
| RenderLogin (errors : FormErrors)
| RenderMe (activities : list Activity.t)
| RenderCreate (errors : FormErrors)
| RenderProfile (user : User.t) (posts : list Activity.t)
| Json (items : list FeedItem)
| NotFound                (* abort(404) *)
| InternalError.          (* an uncaught exception *)

(** ** Read-only routes *)

Definition home_feed (st : Store) : list Activity.t :=
  limit 50 (order_by_created_at_desc (filter_by_public (activities st))).

Definition home (st : Store) : Response :=
  RenderHome (home_feed st).

Definition profile_posts (st : Store) (uid : Z) : list Activity.t :=
  order_by_created_at_desc (filter_by_public (filter_by_user uid (activities st))).

(** [user_id] is what the [<int:user_id>] converter of the route hands
    over: a natural number.  The model follows the code for the ids a
    64-bit integer key can hold; what the database driver does with a
    larger number is outside it. *)
Definition profile (st : Store) (user_id : Z) : Response :=
  match get_user st user_id with
  | None => NotFound
  | Some user => RenderProfile user (profile_posts st (User.id user))
  end.

Definition api_feed_items (st : Store) : list Activity.t :=
  limit 100 (order_by_created_at_desc (filter_by_public (activities st))).

(** One dictionary of the list comprehension; [a.author] is the user the
    foreign key points to, and [a.author.name] raises when there is none. *)
Definition feed_item (st : Store) (a : Activity.t) : option FeedItem :=
  match get_user st (Activity.user_id a) with
  | None => None
  | Some author =>
      Some {| item_id := Activity.id a;
              item_user := User.name author;
              item_title := Activity.title a;
              item_description := Activity.description a;
              item_mood := Activity.mood a;
              item_category := Activity.category a;
              item_lat := Activity.latitude a;
              item_lng := Activity.longitude a;
              item_location_text := Activity.location_text a;
              item_created_at := isoformat (Activity.created_at a) |}
  end.

Fixpoint feed_items (st : Store) (l : list Activity.t) : option (list FeedItem) :=
  match l with
  | [] => Some []
  | a :: l' =>
      match feed_item st a, feed_items st l' with
      | Some it, Some its => Some (it :: its)
      | _, _ => None
      end
  end.

Definition api_feed (st : Store) : Response :=
  match feed_items st (api_feed_items st) with
  | Some items => Json items
  | None => InternalError
  end.

Definition my_activities (st : Store) (uid : Z) : list Activity.t :=
  order_by_created_at_desc (filter_by_user uid (activities st)).

(** ** Requests and form processing *)

Inductive Method : Type := GET | POST.

(** A request: the method, the submitted form as its list of pairs,
    whether the CSRF check of [FlaskForm] passes, and the two values the
    handlers draw from outside: the clock ([datetime.utcnow]) and the salt
    of [generate_password_hash].  The form is a urlencoded body, so every
    submitted value is a string; JSON bodies and uploaded files, which
    Flask-WTF can also hand to a form, are outside the model. *)
Record Request : Type := {
  method : Method;
  form : list (string * string);
  csrf_ok : bool;
  now : Z;
  salt : string
}.

(** [formdata.getlist(name)]. *)
Definition getlist (name : string) (fd : list (string * string)) : list string :=
  map snd (filter (fun p => String.eqb (fst p) name) fd).

(** [StringField.process_formdata]: the first value, [None] without one. *)
Definition string_field (valuelist : list string) : option string :=
  hd_error valuelist.

(** [BooleanField.process_formdata], with [false_values = (False, "false", "")]. *)
Definition boolean_field (valuelist : list string) : bool :=
  match valuelist with
  | [] => false
  | v :: _ => negb (String.eqb v "false" || String.eqb v "")
  end.

(** [FloatField.process_formdata]: nothing submitted leaves the data [None];
    otherwise [float] of the first value, and a process error when that
    raises [ValueError]. *)
Definition float_field (valuelist : list string) : option float * list FieldError :=
  match valuelist with
  | [] => (None, [])
  | v :: _ =>
      match py_float v with
      | Some f => (Some f, [])
      | None => (None, [ErrFloat])
      end
  end.

Definition process_RegisterForm (fd : list (string * string)) : RegisterForm.t :=
  {| RegisterForm.name := string_field (getlist "name" fd);
     RegisterForm.email := string_field (getlist "email" fd);
     RegisterForm.password := string_field (getlist "password" fd);
     RegisterForm.confirm := string_field (getlist "confirm" fd) |}.

Definition process_LoginForm (fd : list (string * string)) : LoginForm.t :=
  {| LoginForm.email := string_field (getlist "email" fd);
     LoginForm.password := string_field (getlist "password" fd) |}.

Definition process_ActivityForm (fd : list (string * string)) : ActivityForm.t :=
  let lat := float_field (getlist "latitude" fd) in
  let lng := float_field (getlist "longitude" fd) in
  {| ActivityForm.title := string_field (getlist "title" fd);
     ActivityForm.description := string_field (getlist "description" fd);
     ActivityForm.is_public := boolean_field (getlist "is_public" fd);
     ActivityForm.mood := string_field (getlist "mood" fd);
     ActivityForm.category := string_field (getlist "category" fd);
     ActivityForm.latitude := fst lat;
     ActivityForm.latitude_process_errors := snd lat;
     ActivityForm.longitude := fst lng;
     ActivityForm.longitude_process_errors := snd lng;
     ActivityForm.location_text := string_field (getlist "location_text" fd) |}.

(** ** Validators *)

(** What a validator does: return, raise [ValidationError], or (as
    [DataRequired] does) clear the field's errors and raise
    [StopValidation]. *)
Inductive Verdict : Type :=
| Pass
| Fail (e : FieldError)
| Stop (e : FieldError).

Definition Validator : Type := option string -> Verdict.

Definition DataRequired : Validator := fun data =>
  match data with
  | Some s =>
      if negb (String.eqb s "") && negb (String.eqb (str_strip s) "")
      then Pass else Stop ErrRequired
  | None => Stop ErrRequired
  end.

Definition Email : Validator := fun data =>
  match data with
  | Some s => if validate_email s then Pass else Fail ErrEmail
  | None => Fail ErrEmail
  end.

(** [Length(min, max)]; [-1] is the default of both and switches the
    bound off. *)
Definition Length (min max : Z) : Validator := fun data =>
  let length :=
    match data with
    | Some s => Z.of_nat (String.length s)
    | None => 0%Z
    end in
  if ((min <=? length)%Z && ((max =? -1)%Z || (length <=? max)%Z))%bool
  then Pass else Fail ErrLength.

Definition data_eqb (x y : option string) : bool :=
  match x, y with
  | Some s, Some s' => String.eqb s s'
  | None, None => true
  | _, _ => false
  end.

(** [EqualTo(fieldname)], given the data of the other field. *)
Definition EqualTo (other : option string) : Validator := fun data =>
  if data_eqb data other then Pass else Fail ErrEqualTo.

(** [Field._run_validation_chain], on the errors found so far. *)
Fixpoint run_validation_chain (validators : list Validator)
    (data : option string) (errors : list FieldError) : list FieldError :=
  match validators with
  | [] => errors
  | v :: rest =>
      match v data with
      | Pass => run_validation_chain rest data errors
      | Fail e => run_validation_chain rest data (errors ++ [e])
      | Stop e => [e]
      end
  end.

(** [Field.validate]: the process errors, then the chain. *)
Definition field_validate (process_errors : list FieldError)
    (validators : list Validator) (data : option string) : list FieldError :=
  run_validation_chain validators data process_errors.

Definition no_errors (es : list FieldError) : bool :=
  match es with [] => true | _ :: _ => false end.

(** [Form.validate]: every field is validated, and all must pass. *)
Definition validate (fields : list (string * list FieldError)) : bool :=
  forallb (fun p => no_errors (snd p)) fields.

(** [Form.errors]. *)
Definition form_errors (fields : list (string * list FieldError)) : FormErrors :=
  filter (fun p => negb (no_errors (snd p))) fields.

Definition csrf_token (req : Request) : string * list FieldError :=
  ("csrf_token", if csrf_ok req then [] else [ErrCsrf]).

Definition RegisterForm_fields (req : Request) (f : RegisterForm.t)
    : list (string * list FieldError) :=
  [ ("name", field_validate [] [DataRequired; Length (-1) 120] (RegisterForm.name f));
    ("email", field_validate [] [DataRequired; Email; Length (-1) 120] (RegisterForm.email f));
    ("password", field_validate [] [DataRequired; Length 6 (-1)] (RegisterForm.password f));
    ("confirm", field_validate [] [DataRequired; EqualTo (RegisterForm.password f)]
                  (RegisterForm.confirm f));
    csrf_token req ].

Definition LoginForm_fields (req : Request) (f : LoginForm.t)
    : list (string * list FieldError) :=
  [ ("email", field_validate [] [DataRequired; Email] (LoginForm.email f));
    ("password", field_validate [] [DataRequired] (LoginForm.password f));
    csrf_token req ].

Definition ActivityForm_fields (req : Request) (f : ActivityForm.t)
    : list (string * list FieldError) :=
  [ ("title", field_validate [] [DataRequired; Length (-1) 200] (ActivityForm.title f));
    ("description", field_validate [] [Length (-1) 5000] (ActivityForm.description f));
    ("is_public", []);
    ("mood", field_validate [] [Length (-1) 30] (ActivityForm.mood f));
    ("category", field_validate [] [Length (-1) 50] (ActivityForm.category f));
    ("latitude", ActivityForm.latitude_process_errors f);
    ("longitude", ActivityForm.longitude_process_errors f);
    ("location_text", field_validate [] [Length (-1) 200] (ActivityForm.location_text f));
    csrf_token req ].

(** ** Routes that read the session or write the store *)

(** What a request leaves behind: the store, the session, the messages
    it flashed, and the response. *)
Record Outcome : Type := {
  store : Store;
  session : Session;
  flashes : list (string * string);
  response : Response
}.

(** [load_user] on the id of the session; [current_user.is_authenticated]
    holds when it finds a user. *)
Definition current_user (st : Store) (sess : Session) : option User.t :=
  match sess with
  | None => None
  | Some user_id => get_user st user_id
  end.

(** [LoginManager.unauthorized] with [login_view = "login"]: what
    [@login_required] answers to an anonymous request. *)
Definition unauthorized (st : Store) (sess : Session) : Outcome :=
  {| store := st; session := sess;
     flashes := [("Please log in to access this page.", "message")];
     response := Redirect EpLogin |}.

(** A value handed to a column with a default: [None] lets the default fire. *)
Definition column_default {A : Type} (default : A) (value : option A) : A :=
  match value with
  | Some v => v
  | None => default
  end.

(** [x if x not in (None, "") else None] on the data of a [FloatField],
    which is [None] or a float, never a string. *)
Definition blank_to_none (data : option float) : option float :=
  match data with
  | None => None
  | Some f => Some f
  end.

Definition register (st : Store) (sess : Session) (req : Request) : Outcome :=
  match current_user st sess with
  | Some _ =>
      {| store := st; session := sess; flashes := []; response := Redirect EpHome |}
  | None =>
      match method req with
      | GET =>
          {| store := st; session := sess; flashes := [];
             response := RenderRegister [] |}
      | POST =>
          let f := process_RegisterForm (form req) in
          let fields := RegisterForm_fields req f in
          if validate fields then
            match RegisterForm.email f with
            | None =>
                {| store := st; session := sess; flashes := [];
                   response := InternalError |}
            | Some email =>
                match first (filter_by_email (str_lower email) (users st)) with
                | Some _ =>
                    {| store := st; session := sess;
                       flashes := [("Email already registered.", "error")];
                       response := Redirect EpRegister |}
                | None =>
                    match RegisterForm.name f, RegisterForm.password f with
                    | Some name, Some password =>
                        let user :=
                          {| User.id := next_id (map User.id (users st));
                             User.name := name;
                             User.email := str_lower email;
                             User.password_hash :=
                               generate_password_hash (salt req) password;
                             User.bio := None;
                             User.created_at := now req |} in
                        {| store := {| users := users st ++ [user];
                                       activities := activities st |};
                           session := Some (User.id user);
                           flashes := [("Welcome! Account created.", "success")];
                           response := Redirect EpHome |}
                    | _, _ =>
                        {| store := st; session := sess; flashes := [];
                           response := InternalError |}
                    end
                end
            end
          else
            {| store := st; session := sess; flashes := [];
               response := RenderRegister (form_errors fields) |}
      end
  end.

Definition login (st : Store) (sess : Session) (req : Request) : Outcome :=
  match current_user st sess with
  | Some _ =>
      {| store := st; session := sess; flashes := []; response := Redirect EpHome |}
  | None =>
      match method req with
      | GET =>
          {| store := st; session := sess; flashes := [];
             response := RenderLogin [] |}
      | POST =>
          let f := process_LoginForm (form req) in
          let fields := LoginForm_fields req f in
          if validate fields then
            match LoginForm.email f with
            | None =>
                {| store := st; session := sess; flashes := [];
                   response := InternalError |}
            | Some email =>
                match first (filter_by_email (str_lower email) (users st)) with
                | Some user =>
                    match LoginForm.password f with
                    | None =>
                        {| store := st; session := sess; flashes := [];
                           response := InternalError |}
                    | Some password =>
                        if check_password_hash (User.password_hash user) password then
                          {| store := st; session := Some (User.id user);
                             flashes := [("Logged in successfully.", "success")];
                             response := Redirect EpHome |}
                        else
                          {| store := st; session := sess;
                             flashes := [("Invalid credentials.", "error")];
                             response := RenderLogin (form_errors fields) |}
                    end
                | None =>
                    {| store := st; session := sess;
                       flashes := [("Invalid credentials.", "error")];
                       response := RenderLogin (form_errors fields) |}
                end
            end
          else
            {| store := st; session := sess; flashes := [];
               response := RenderLogin (form_errors fields) |}
      end
  end.

Definition logout (st : Store) (sess : Session) : Outcome :=
  match current_user st sess with
  | None => unauthorized st sess
  | Some _ =>
      {| store := st; session := None;
         flashes := [("Logged out.", "success")];
         response := Redirect EpHome |}
  end.

Definition me (st : Store) (sess : Session) : Outcome :=
  match current_user st sess with
  | None => unauthorized st sess
  | Some user =>
      {| store := st; session := sess; flashes := [];
         response := RenderMe (my_activities st (User.id user)) |}
  end.

Definition create (st : Store) (sess : Session) (req : Request) : Outcome :=
  match current_user st sess with
  | None => unauthorized st sess
  | Some user =>
      match method req with
      | GET =>
          {| store := st; session := sess; flashes := [];
             response := RenderCreate [] |}
      | POST =>
          let f := process_ActivityForm (form req) in
          let fields := ActivityForm_fields req f in
          if validate fields then
            match ActivityForm.title f with
            | None =>
                {| store := st; session := sess; flashes := [];
                   response := InternalError |}
            | Some title =>
                let act :=
                  {| Activity.id := next_id (map Activity.id (activities st));
                     Activity.user_id := User.id user;
                     Activity.title := title;
                     Activity.description := ActivityForm.description f;
                     Activity.is_public :=
                       column_default true (Some (ActivityForm.is_public f));
                     Activity.mood := ActivityForm.mood f;
                     Activity.category := ActivityForm.category f;
                     Activity.latitude := blank_to_none (ActivityForm.latitude f);
                     Activity.longitude := blank_to_none (ActivityForm.longitude f);
                     Activity.location_text := ActivityForm.location_text f;
                     Activity.created_at := now req |} in
                {| store := {| users := users st;
                               activities := activities st ++ [act] |};
                   session := sess;
                   flashes := [("Activity posted.", "success")];
                   response := Redirect EpHome |}
            end
          else
            {| store := st; session := sess; flashes := [];
               response := RenderCreate (form_errors fields) |}
      end
  end.

End App.

(** [sorted_desc l]: whatever comes earlier in [l] was created no earlier
    than whatever comes later. *)
Definition sorted_desc `{Platform} (l : list Activity.t) : Prop :=
  StronglySorted
    (fun a b => (Activity.created_at b <= Activity.created_at a)%Z) l.

(** ** A small platform to run the handlers on

    ASCII strings, whole numbers for floats, and a transparent stand-in
    for the password hash.  It is used for the examples at the end only;
    the theorems hold for every platform. *)

Module Demo.

Definition lower_char (c : ascii) : ascii :=
  let n := nat_of_ascii c in
  if ((65 <=? n) && (n <=? 90))%nat then ascii_of_nat (n + 32) else c.

Fixpoint lower (s : string) : string :=
  match s with
  | EmptyString => EmptyString
  | String c s' => String (lower_char c) (lower s')
  end.

Definition is_space (c : ascii) : bool :=
  let n := nat_of_ascii c in
  (((9 <=? n) && (n <=? 13)) || (n =? 32))%nat.

Fixpoint lstrip (s : string) : string :=
  match s with
  | EmptyString => EmptyString
  | String c s' => if is_space c then lstrip s' else s
  end.

Fixpoint rstrip (s : string) : string :=
  match s with
  | EmptyString => EmptyString
  | String c s' =>
      match rstrip s' with
      | EmptyString => if is_space c then EmptyString else String c EmptyString
      | r => String c r
      end
  end.

Definition strip (s : string) : string := rstrip (lstrip s).

Definition digit (c : ascii) : option Z :=
  let n := nat_of_ascii c in
  if ((48 <=? n) && (n <=? 57))%nat then Some (Z.of_nat (n - 48)) else None.

Fixpoint digits (s : string) (acc : Z) : option Z :=
  match s with
  | EmptyString => Some acc
  | String c s' =>
      match digit c with
      | Some d => digits s' (10 * acc + d)%Z
      | None => None
      end
  end.

(** [float] of a string of digits; anything else, the empty string
    included, is a [ValueError]. *)
Definition parse (s : string) : option Z :=
  match s with
  | EmptyString => None
  | _ => digits s 0%Z
  end.

Fixpoint has_at (s : string) : bool :=
  match s with
  | EmptyString => false
  | String c s' => Ascii.eqb c "@"%char || has_at s'
  end.

Definition platform : Platform :=
  {| float := Z;
     str_lower := lower;
     str_strip := strip;
     py_float := parse;
     validate_email := has_at;
     generate_password_hash := fun salt password => password ++ "$" ++ salt;
     check_password_hash := fun pwhash password => prefix (password ++ "$") pwhash;
     isoformat := fun t => NilZero.string_of_int (Z.to_int t) |}.

#[local] Existing Instance platform.

Definition ann : User.t :=
  {| User.id := 1%Z; User.name := "Ann"; User.email := "ann@x.com";
     User.password_hash := "secret1$s1"; User.bio := None;
     User.created_at := 10%Z |}.

Definition activity (id : Z) (title : string) (is_public : bool) (t : Z)
    : Activity.t :=
  {| Activity.id := id; Activity.user_id := 1%Z; Activity.title := title;
     Activity.description := None; Activity.is_public := is_public;
     Activity.mood := None; Activity.category := None;
     Activity.latitude := None; Activity.longitude := None;
     Activity.location_text := None; Activity.created_at := t |}.

Definition ran : Activity.t := activity 1 "Ran 5k" true 100.
Definition note : Activity.t := activity 2 "Private note" false 200.
Definition swam : Activity.t := activity 3 "Swam" true 300.
Definition read : Activity.t := activity 4 "Read" true 400.

(** Ann and her first two posts. *)
Definition st : Store := {| users := [ann]; activities := [ran; note] |}.

(** Three public posts, stored in an order that is not the feed's. *)
Definition st3 : Store := {| users := [ann]; activities := [swam; ran; read] |}.

(** No user yet. *)
Definition empty : Store := {| users := []; activities := [] |}.

Definition post (fd : list (string * string)) : Request :=
  {| method := POST; form := fd; csrf_ok := true; now := 500%Z; salt := "s2" |}.

(** Ann's registration, as she types it. *)
Definition register_ann : Request :=
  post [("name", "Ann"); ("email", "Ann@X.com");
        ("password", "secret1"); ("confirm", "secret1")].

Definition login_ann : Request :=
  post [("email", "Ann@X.com"); ("password", "secret1")].

Definition login_wrong_password : Request :=
  post [("email", "ann@x.com"); ("password", "secret2")].

Definition login_unknown_user : Request :=
  post [("email", "bob@x.com"); ("password", "secret1")].

(** A post whose coordinate inputs were left empty. *)
Definition create_blank_coordinates : Request :=
  post [("title", "Ran 5k"); ("is_public", "y");
        ("latitude", ""); ("longitude", "")].

(** A post whose checkbox was left unticked: browsers then send no
    [is_public] pair at all. *)
Definition create_unticked : Request :=
  post [("title", "Walked home")].

End Demo.

(** ** The server as a whole

    The routes that take part in a session, behind one dispatcher, and the
    store after a sequence of requests, each arriving with the session of
    the client that sent it. *)

Section Server.
Context `{PF : Platform}.

Inductive Call : Type :=
| CallRegister (req : Request)
| CallLogin (req : Request)
| CallLogout
| CallMe
| CallCreate (req : Request).

Definition dispatch (c : Call) (st : Store) (sess : Session) : Outcome :=
  match c with
  | CallRegister req => register st sess req
  | CallLogin req => login st sess req
  | CallLogout => logout st sess
  | CallMe => me st sess
  | CallCreate req => create st sess req
  end.

Fixpoint serve (trace : list (Session * Call)) (st : Store) : Store :=
  match trace with
  | [] => st
  | (sess, c) :: rest => serve rest (store (dispatch c st sess))
  end.

(** What the schema asks of the two tables: primary keys and e-mails are
    unique, and the owner of every activity is a row of the user table. *)
Definition store_ok (st : Store) : Prop :=
  NoDup (map User.id (users st)) /\
  NoDup (map User.email (users st)) /\
  NoDup (map Activity.id (activities st)) /\
  (forall a, In a (activities st) ->
             exists u, In u (users st) /\ User.id u = Activity.user_id a).

(** A response that stands for an uncaught exception. *)
Definition crashed (r : Response) : bool :=
  match r with
  | InternalError => true
  | _ => false
  end.

(** A session is sound when the id it holds is the key of a user. *)
Definition session_ok (st : Store) (sess : Session) : Prop :=
  match sess with
  | None => True
  | Some user_id => exists u, get_user st user_id = Some u
  end.

End Server.

(** More rows for the examples. *)

Module Tour.

#[local] Existing Instance Demo.platform.

Definition bob : User.t :=
  {| User.id := 2%Z; User.name := "Bob"; User.email := "bob@x.com";
     User.password_hash := "hunter22$s3"; User.bio := None;
     User.created_at := 20%Z |}.

(** Ann and Bob, Ann's two posts. *)
Definition st : Store :=
  {| users := [Demo.ann; bob]; activities := [Demo.ran; Demo.note] |}.

Definition login_bob : Request :=
  Demo.post [("email", "BOB@x.com"); ("password", "hunter22")].

Definition create_public : Request :=
  Demo.post [("title", "Cycled"); ("is_public", "y")].

Definition create_untitled : Request :=
  Demo.post [("title", ""); ("is_public", "y")].

Definition get : Request :=
  {| method := GET; form := []; csrf_ok := true; now := 500%Z; salt := "s2" |}.

(** Carl's registration and the login that follows it. *)
Definition register_carl : Request :=
  Demo.post [("name", "Carl"); ("email", "Carl@X.com");
             ("password", "letmein1"); ("confirm", "letmein1")].

Definition login_carl : Request :=
  Demo.post [("email", "Carl@X.com"); ("password", "letmein1")].

(** Sixty public posts of Ann, the n-th created at time n. *)
Definition crowd : Store :=
  {| users := [Demo.ann];
     activities :=
       map (fun n => Demo.activity (Z.of_nat n) "Post" true (Z.of_nat n))
           (seq 1 60) |}.

(** The store before anyone registered. *)
Definition nobody : Store := {| users := []; activities := [] |}.

End Tour.

(** * Properties *)

Section Queries.
Context `{PF : Platform}.

(** ** [order_by], [filter_by] and [limit] *)

Lemma insert_desc_perm (a : Activity.t) (l : list Activity.t) :
  Permutation (a :: l) (insert_desc a l).
Proof.
  induction l as [|b l IH]; simpl.
  - apply Permutation_refl.
  - destruct (Activity.created_at b <=? Activity.created_at a)%Z.
    + apply Permutation_refl.
    + eapply perm_trans; [apply perm_swap|].
      apply perm_skip, IH.
Qed.

Lemma order_by_perm (l : list Activity.t) :
  Permutation l (order_by_created_at_desc l).
Proof.
  induction l as [|a l IH]; simpl.
  - constructor.
  - eapply perm_trans; [apply perm_skip, IH|].
    apply insert_desc_perm.
Qed.

Lemma order_by_In (x : Activity.t) (l : list Activity.t) :
  In x (order_by_created_at_desc l) <-> In x l.
Proof.
  split; apply Permutation_in;
    [apply Permutation_sym|]; apply order_by_perm.
Qed.

Lemma insert_desc_sorted (a : Activity.t) (l : list Activity.t) :
  sorted_desc l -> sorted_desc (insert_desc a l).
Proof.
  unfold sorted_desc.
  induction l as [|b l IH]; simpl; intros Hs.
  - constructor; constructor.
  - inversion Hs as [|? ? Hl Hb]; subst.
    destruct (Activity.created_at b <=? Activity.created_at a)%Z eqn:E.
    + apply Z.leb_le in E.
      constructor; [assumption|].
      constructor; [assumption|].
      eapply Forall_impl; [|exact Hb].
      simpl; intros c Hc; lia.
    + apply Z.leb_gt in E.
      constructor; [apply IH; assumption|].
      apply Forall_forall; intros c Hc.
      apply (Permutation_in _ (Permutation_sym (insert_desc_perm a l))) in Hc.
      destruct Hc as [<-|Hc]; [lia|].
      rewrite Forall_forall in Hb; apply Hb; assumption.
Qed.

Lemma order_by_sorted (l : list Activity.t) :
  sorted_desc (order_by_created_at_desc l).
Proof.
  induction l as [|a l IH]; simpl.
  - constructor.
  - apply insert_desc_sorted, IH.
Qed.

Lemma limit_In (A : Type) (n : nat) (x : A) (l : list A) :
  In x (limit n l) -> In x l.
Proof.
  unfold limit; revert n.
  induction l as [|a l IH]; intros [|n]; simpl; try tauto.
  intros [H|H]; [left; exact H|right; apply (IH n), H].
Qed.

Lemma limit_sorted (n : nat) (l : list Activity.t) :
  sorted_desc l -> sorted_desc (limit n l).
Proof.
  unfold sorted_desc.
  intros Hs; revert n.
  induction Hs as [|a l Hs IH Ha]; intros [|n]; simpl; try constructor.
  - apply IH.
  - rewrite Forall_forall in *; intros c Hc.
    apply Ha, (limit_In n), Hc.
Qed.

Lemma limit_length (A : Type) (n : nat) (l : list A) :
  (List.length (limit n l) <= n)%nat.
Proof. unfold limit; apply firstn_le_length. Qed.

Lemma limit_short (A : Type) (n : nat) (l : list A) :
  (List.length l <= n)%nat -> limit n l = l.
Proof. unfold limit; apply firstn_all2. Qed.

Lemma filter_all (A : Type) (f : A -> bool) (l : list A) :
  (forall x, In x l -> f x = true) -> filter f l = l.
Proof.
  induction l as [|a l IH]; simpl; intros H; [reflexivity|].
  rewrite (H a (or_introl eq_refl)).
  f_equal; apply IH; intros x Hx; apply H; right; assumption.
Qed.

Lemma filter_by_public_In (a : Activity.t) (l : list Activity.t) :
  In a (filter_by_public l) <-> In a l /\ Activity.is_public a = true.
Proof. unfold filter_by_public; apply filter_In. Qed.

Lemma filter_by_user_In (uid : Z) (a : Activity.t) (l : list Activity.t) :
  In a (filter_by_user uid l) <-> In a l /\ Activity.user_id a = uid.
Proof.
  unfold filter_by_user; rewrite filter_In, Z.eqb_eq; reflexivity.
Qed.

(** A list sorted newest first that holds exactly three posts of
    increasing age is those three, newest first. *)
Lemma sorted_desc_three (l : list Activity.t) (a1 a2 a3 : Activity.t) :
  (Activity.created_at a1 < Activity.created_at a2)%Z ->
  (Activity.created_at a2 < Activity.created_at a3)%Z ->
  Permutation l [a1; a2; a3] ->
  sorted_desc l ->
  l = [a3; a2; a1].
Proof.
  intros H12 H23 Hp Hs.
  pose proof (Permutation_length Hp) as Hlen.
  destruct l as [|x [|y [|z [|w l]]]]; simpl in Hlen; try discriminate.
  unfold sorted_desc in Hs.
  inversion Hs as [|? ? Hs' Hx]; subst.
  inversion Hs' as [|? ? _ Hy]; subst.
  inversion Hx as [|? ? Hxy Hx']; subst.
  inversion Hx' as [|? ? Hxz _]; subst.
  inversion Hy as [|? ? Hyz _]; subst.
  assert (Hin : In x [a1; a2; a3])
    by (apply (Permutation_in _ Hp); left; reflexivity).
  destruct Hin as [<-|[<-|[<-|[]]]].
  - apply Permutation_cons_inv in Hp.
    apply Permutation_length_2_inv in Hp.
    destruct Hp as [Hp|Hp]; injection Hp as -> ->; lia.
  - apply (@Permutation_cons_app_inv _ [y; z] [a1] [a3] a2) in Hp.
    apply Permutation_length_2_inv in Hp.
    destruct Hp as [Hp|Hp]; injection Hp as -> ->; lia.
  - apply (@Permutation_cons_app_inv _ [y; z] [a1; a2] [] a3) in Hp.
    apply Permutation_length_2_inv in Hp.
    destruct Hp as [Hp|Hp]; injection Hp as -> ->; [lia|reflexivity].
Qed.

(** The JSON array has one entry per row of the query, in its order. *)
Lemma feed_items_length (st : Store) (l : list Activity.t) (items : list FeedItem) :
  feed_items st l = Some items -> List.length items = List.length l.
Proof.
  revert items; induction l as [|a l IH]; simpl; intros items H.
  - injection H as <-; reflexivity.
  - destruct (feed_item st a); [|discriminate].
    destruct (feed_items st l) as [its|]; [|discriminate].
    injection H as <-; simpl; f_equal; apply IH; reflexivity.
Qed.

Lemma feed_items_In (st : Store) (l : list Activity.t) (items : list FeedItem)
    (it : FeedItem) :
  feed_items st l = Some items -> In it items ->
  exists a, In a l /\ feed_item st a = Some it.
Proof.
  revert items; induction l as [|a l IH]; simpl; intros items H Hin.
  - injection H as <-; contradiction.
  - destruct (feed_item st a) as [i|] eqn:Ei; [|discriminate].
    destruct (feed_items st l) as [its|]; [|discriminate].
    injection H as <-.
    destruct Hin as [<-|Hin].
    + exists a; split; [left; reflexivity|exact Ei].
    + destruct (IH its eq_refl Hin) as (b & Hb & Eb).
      exists b; split; [right; exact Hb|exact Eb].
Qed.

Lemma feed_items_created_at (st : Store) (l : list Activity.t)
    (items : list FeedItem) :
  feed_items st l = Some items ->
  map item_created_at items = map (fun a => isoformat (Activity.created_at a)) l.
Proof.
  revert items; induction l as [|a l IH]; simpl; intros items H.
  - injection H as <-; reflexivity.
  - unfold feed_item in H.
    destruct (get_user st (Activity.user_id a)); [|discriminate].
    destruct (feed_items st l) as [its|]; [|discriminate].
    injection H as <-; simpl; f_equal; apply IH; reflexivity.
Qed.

End Queries.

Section Forms.
Context `{PF : Platform}.

(** ** Validation *)

Lemma run_validation_chain_nil (vs : list Validator) (data : option string)
    (errors : list FieldError) :
  run_validation_chain vs data errors = [] ->
  errors = [] /\ Forall (fun v => v data = Pass) vs.
Proof.
  revert errors; induction vs as [|v vs IH]; simpl; intros errors H.
  - split; [assumption|constructor].
  - destruct (v data) eqn:E; try discriminate.
    + destruct (IH _ H) as [-> Hvs]; split; [reflexivity|].
      constructor; assumption.
    + destruct (IH _ H) as [Hnil _].
      destruct errors; discriminate.
Qed.

Lemma run_validation_chain_pass (vs : list Validator) (data : option string)
    (errors : list FieldError) :
  Forall (fun v => v data = Pass) vs ->
  run_validation_chain vs data errors = errors.
Proof.
  induction 1 as [|v vs Hv _ IH]; simpl; [reflexivity|].
  rewrite Hv; exact IH.
Qed.

Lemma DataRequired_pass (data : option string) :
  DataRequired data = Pass -> exists s, data = Some s.
Proof.
  destruct data as [s|]; simpl; [eauto|discriminate].
Qed.

Lemma validate_form_errors (fields : list (string * list FieldError)) :
  validate fields = true -> form_errors fields = [].
Proof.
  unfold validate, form_errors.
  induction fields as [|p fields IH]; simpl; [reflexivity|].
  intros H; apply andb_prop in H; destruct H as [Hp H].
  rewrite Hp; simpl; apply IH, H.
Qed.

Lemma invalid_form_errors (fields : list (string * list FieldError)) :
  validate fields = false -> form_errors fields <> [].
Proof.
  unfold validate, form_errors.
  induction fields as [|p fields IH]; simpl; [discriminate|].
  destruct (no_errors (snd p)); simpl; [exact IH|discriminate].
Qed.

Lemma validate_cons (name : string) (es : list FieldError)
    (fields : list (string * list FieldError)) :
  validate ((name, es) :: fields) = true <-> es = [] /\ validate fields = true.
Proof.
  unfold validate; cbn [forallb snd]; rewrite andb_true_iff.
  destruct es; simpl; intuition congruence.
Qed.

(** A registration form that validates carries an e-mail and a password
    the login form accepts as well. *)
Lemma register_valid_login_valid (req req2 : Request) :
  validate (RegisterForm_fields req (process_RegisterForm (form req))) = true ->
  csrf_ok req2 = true ->
  LoginForm.email (process_LoginForm (form req2)) =
    RegisterForm.email (process_RegisterForm (form req)) ->
  LoginForm.password (process_LoginForm (form req2)) =
    RegisterForm.password (process_RegisterForm (form req)) ->
  validate (LoginForm_fields req2 (process_LoginForm (form req2))) = true.
Proof.
  intros Hv Hcsrf He Hpw.
  unfold RegisterForm_fields, csrf_token in Hv.
  repeat rewrite validate_cons in Hv.
  destruct Hv as (_ & Hemail & Hpass & _).
  unfold field_validate in Hemail, Hpass.
  apply run_validation_chain_nil in Hemail; destruct Hemail as [_ Hemail].
  apply run_validation_chain_nil in Hpass; destruct Hpass as [_ Hpass].
  inversion Hemail as [|? ? Hreq Hemail']; subst.
  inversion Hemail' as [|? ? Hmail _]; subst.
  inversion Hpass as [|? ? Hreq' _]; subst.
  unfold LoginForm_fields, csrf_token.
  rewrite Hcsrf, He, Hpw.
  repeat rewrite validate_cons.
  unfold field_validate.
  split; [apply run_validation_chain_pass; repeat constructor; assumption|].
  split; [apply run_validation_chain_pass; repeat constructor; assumption|].
  split; reflexivity.
Qed.

(** ** Looking a user up *)

Lemma first_filter_by_email_found (e : string) (us : list User.t) (u : User.t) :
  In u us -> User.email u = e ->
  exists u', first (filter_by_email e us) = Some u'.
Proof.
  intros Hin He.
  assert (H : In u (filter_by_email e us)).
  { unfold filter_by_email; apply filter_In; split; [assumption|].
    apply String.eqb_eq; assumption. }
  destruct (filter_by_email e us) as [|u' l]; [contradiction|].
  exists u'; reflexivity.
Qed.

Lemma first_filter_by_email_absent (e : string) (us : list User.t) :
  (forall u, In u us -> User.email u <> e) ->
  first (filter_by_email e us) = None.
Proof.
  intros H.
  destruct (filter_by_email e us) as [|u l] eqn:E; [reflexivity|].
  assert (Hu : In u (filter_by_email e us)) by (rewrite E; left; reflexivity).
  unfold filter_by_email in Hu; apply filter_In in Hu; destruct Hu as [Hin He].
  apply String.eqb_eq in He; exfalso; exact (H u Hin He).
Qed.

Lemma first_filter_by_email_new (e : string) (us : list User.t) (u : User.t) :
  first (filter_by_email e us) = None -> User.email u = e ->
  first (filter_by_email e (us ++ [u])) = Some u.
Proof.
  unfold filter_by_email; intros Hnone He.
  rewrite filter_app; simpl.
  destruct (filter _ us); [|discriminate].
  apply String.eqb_eq in He; rewrite He; reflexivity.
Qed.

(** ** Fresh primary keys *)

Lemma next_id_above (ids : list Z) (i : Z) :
  In i ids -> (i < next_id ids)%Z.
Proof.
  unfold next_id; induction ids as [|j ids IH]; simpl; [tauto|].
  intros [->|H]; [lia|]. specialize (IH H); lia.
Qed.

Lemma get_user_new (st : Store) (u : User.t) (acts : list Activity.t) :
  User.id u = next_id (map User.id (users st)) ->
  get_user {| users := users st ++ [u]; activities := acts |} (User.id u) = Some u.
Proof.
  unfold get_user; simpl; intros Hid.
  assert (Hfresh : find (fun v => (User.id v =? User.id u)%Z) (users st) = None).
  { destruct (find _ (users st)) as [v|] eqn:E; [|reflexivity].
    apply find_some in E; destruct E as [Hin Hv].
    apply Z.eqb_eq in Hv.
    pose proof (next_id_above _ _ (in_map User.id _ _ Hin)) as Hlt.
    lia. }
  revert Hfresh; generalize (users st) as us.
  induction us as [|v us IH]; simpl.
  - intros _; rewrite Z.eqb_refl; reflexivity.
  - destruct (User.id v =? User.id u)%Z; [discriminate|exact IH].
Qed.

End Forms.

Section Feeds.
Context `{PF : Platform}.

(** ** The feeds *)

(** The JSON array of [/api/feed] serialises the rows of [api_feed_items],
    one entry per row and in their order. *)
Lemma api_feed_serialises (st : Store) (items : list FeedItem) :
  api_feed st = Json items ->
  feed_items st (api_feed_items st) = Some items.
Proof.
  unfold api_feed.
  destruct (feed_items st (api_feed_items st)); [|discriminate].
  intros H; injection H as <-; reflexivity.
Qed.

(** C1.  A private Activity (visibility flag false) is in no public
    listing of any store: not in the feed the home page renders, not among
    the rows [/api/feed] serialises (every entry of its JSON array is the
    serialisation of a public row), not among the posts of any user's
    profile page.  The own feed [/me] does list it for its owner. *)
Theorem private_activity_hidden (st : Store) (a : Activity.t) :
  Activity.is_public a = false ->
  (forall feed, home st = RenderHome feed -> ~ In a feed) /\
  ~ In a (api_feed_items st) /\
  (forall items it,
      api_feed st = Json items -> In it items ->
      exists row, In row (activities st) /\ Activity.is_public row = true /\
                  row <> a /\ feed_item st row = Some it) /\
  (forall user_id user posts,
      profile st user_id = RenderProfile user posts -> ~ In a posts) /\
  (forall sess user,
      current_user st sess = Some user ->
      In a (activities st) -> Activity.user_id a = User.id user ->
      exists mine, response (me st sess) = RenderMe mine /\ In a mine).
Proof.
  intros Hpriv.
  assert (Hno : forall l, ~ In a (filter_by_public l)).
  { intros l H; apply filter_by_public_In in H.
    destruct H as [_ H]; congruence. }
  split; [|split; [|split; [|split]]].
  - intros feed H; injection H as <-.
    unfold home_feed; intros Hin.
    apply limit_In in Hin; apply (proj1 (order_by_In _ _)) in Hin.
    exact (Hno _ Hin).
  - unfold api_feed_items; intros Hin.
    apply limit_In in Hin; apply (proj1 (order_by_In _ _)) in Hin.
    exact (Hno _ Hin).
  - intros items it Hjson Hit.
    apply api_feed_serialises in Hjson.
    destruct (feed_items_In _ _ _ Hjson Hit) as (row & Hrow & Eit).
    unfold api_feed_items in Hrow.
    apply limit_In in Hrow; apply (proj1 (order_by_In _ _)) in Hrow.
    apply filter_by_public_In in Hrow; destruct Hrow as [Hin Hpub].
    exists row; repeat split; try assumption.
    intros ->; congruence.
  - intros uid user posts H.
    unfold profile in H.
    destruct (get_user st uid); [|discriminate].
    injection H as _ <-.
    unfold profile_posts; intros Hin.
    apply (proj1 (order_by_In _ _)) in Hin; exact (Hno _ Hin).
  - intros sess user Hu Hin Hown.
    unfold me; rewrite Hu; simpl.
    eexists; split; [reflexivity|].
    unfold my_activities.
    apply (proj2 (order_by_In _ _)), filter_by_user_In; split; assumption.
Qed.

(** C4.  What [/], [/api/feed] and [/me] answer is ordered by creation
    time, newest first.  In every store the home page renders a list that
    is sorted newest first (and holds all public activities while there are
    at most 50), the rows behind the JSON array of [/api/feed] are sorted
    newest first and the entries of the array follow them one by one, and
    [/me] renders for a logged-in user the sorted list of all that user's
    activities.  And when the store holds exactly three posts, public and
    of the logged-in user, created at T1 < T2 < T3, then [/] renders them
    as T3, T2, T1, [/me] renders them as T3, T2, T1, and [/api/feed]
    answers with the array of their three entries in the order T3, T2, T1. *)
Theorem feeds_newest_first (st : Store) :
  (exists feed,
      home st = RenderHome feed /\ sorted_desc feed /\
      ((List.length (filter_by_public (activities st)) <= 50)%nat ->
       Permutation feed (filter_by_public (activities st)))) /\
  (sorted_desc (api_feed_items st) /\
   ((List.length (filter_by_public (activities st)) <= 100)%nat ->
    Permutation (api_feed_items st) (filter_by_public (activities st))) /\
   forall items,
     api_feed st = Json items ->
     map item_created_at items =
     map (fun a => isoformat (Activity.created_at a)) (api_feed_items st)) /\
  (forall sess user,
      current_user st sess = Some user ->
      exists mine,
        response (me st sess) = RenderMe mine /\ sorted_desc mine /\
        Permutation mine (filter_by_user (User.id user) (activities st))) /\
  (forall a1 a2 a3 sess user,
      Permutation (activities st) [a1; a2; a3] ->
      (forall a, In a [a1; a2; a3] ->
                 Activity.is_public a = true /\
                 Activity.user_id a = User.id user) ->
      current_user st sess = Some user ->
      (Activity.created_at a1 < Activity.created_at a2)%Z ->
      (Activity.created_at a2 < Activity.created_at a3)%Z ->
      home st = RenderHome [a3; a2; a1] /\
      response (me st sess) = RenderMe [a3; a2; a1] /\
      exists i1 i2 i3,
        api_feed st = Json [i3; i2; i1] /\
        feed_item st a3 = Some i3 /\
        feed_item st a2 = Some i2 /\
        feed_item st a1 = Some i1).
Proof.
  split.
  { exists (home_feed st); split; [reflexivity|].
    unfold home_feed; split; [apply limit_sorted, order_by_sorted|].
    intros Hlen; rewrite limit_short.
    - apply Permutation_sym, order_by_perm.
    - rewrite <- (Permutation_length (order_by_perm _)); exact Hlen. }
  split.
  { split; [apply limit_sorted, order_by_sorted|]; split.
    - intros Hlen; unfold api_feed_items; rewrite limit_short.
      + apply Permutation_sym, order_by_perm.
      + rewrite <- (Permutation_length (order_by_perm _)); exact Hlen.
    - intros items H; apply api_feed_serialises in H.
      exact (feed_items_created_at _ _ H). }
  split.
  { intros sess user Hcu; unfold me; rewrite Hcu; cbn [response].
    eexists; split; [reflexivity|]; unfold my_activities; split.
    - apply order_by_sorted.
    - apply Permutation_sym, order_by_perm. }
  intros a1 a2 a3 sess user Hp Hall Hcu H12 H23.
  assert (Hpub : filter_by_public (activities st) = activities st).
  { apply filter_all; intros x Hx.
    apply (Permutation_in _ Hp), Hall in Hx; tauto. }
  assert (Hown : filter_by_user (User.id user) (activities st) = activities st).
  { apply filter_all; intros x Hx.
    apply (Permutation_in _ Hp), Hall in Hx; apply Z.eqb_eq; tauto. }
  assert (Hord : order_by_created_at_desc (activities st) = [a3; a2; a1]).
  { apply (sorted_desc_three H12 H23); [|apply order_by_sorted].
    eapply perm_trans; [apply Permutation_sym, order_by_perm|exact Hp]. }
  assert (Hauthor : get_user st (User.id user) = Some user).
  { unfold current_user in Hcu; destruct sess as [uid|]; [|discriminate].
    pose proof Hcu as Hfind; unfold get_user in Hfind.
    apply find_some in Hfind; destruct Hfind as [_ Hid].
    apply Z.eqb_eq in Hid; rewrite Hid; exact Hcu. }
  assert (Hitem : forall a, In a [a1; a2; a3] ->
                            exists it, feed_item st a = Some it).
  { intros a Ha; unfold feed_item.
    rewrite (proj2 (Hall a Ha)), Hauthor; eauto. }
  split.
  { unfold home, home_feed; rewrite Hpub, Hord; reflexivity. }
  split.
  { unfold me; rewrite Hcu; cbn [response].
    unfold my_activities; rewrite Hown, Hord; reflexivity. }
  destruct (Hitem a1) as [i1 Hi1]; [simpl; tauto|].
  destruct (Hitem a2) as [i2 Hi2]; [simpl; tauto|].
  destruct (Hitem a3) as [i3 Hi3]; [simpl; tauto|].
  exists i1, i2, i3.
  split; [|split; [exact Hi3|split; [exact Hi2|exact Hi1]]].
  unfold api_feed, api_feed_items; rewrite Hpub, Hord.
  cbn [limit firstn feed_items]; rewrite Hi3, Hi2, Hi1; reflexivity.
Qed.

(** C5.  Whatever the store holds, the home page renders at most 50
    activities and [/api/feed] answers with at most 100 items. *)
Theorem feeds_capped (st : Store) :
  (exists feed, home st = RenderHome feed /\ (List.length feed <= 50)%nat) /\
  (List.length (api_feed_items st) <= 100)%nat /\
  (forall items, api_feed st = Json items -> (List.length items <= 100)%nat).
Proof.
  repeat split.
  - exists (home_feed st); split; [reflexivity|apply limit_length].
  - apply limit_length.
  - intros items H.
    apply api_feed_serialises, feed_items_length in H.
    rewrite H; apply limit_length.
Qed.

End Feeds.

Section Accounts.
Context `{PF : Platform}.

(** ** Registration and login *)

(** C10.  With a session already active, [/register] and [/login] answer
    with a redirect to the home feed whatever the request holds: no form is
    processed, nothing is flashed, and the store and the session stay as
    they were. *)
Theorem authenticated_redirected_home (st : Store) (sess : Session)
    (req : Request) (user : User.t) :
  current_user st sess = Some user ->
  register st sess req =
    {| store := st; session := sess; flashes := []; response := Redirect EpHome |} /\
  login st sess req =
    {| store := st; session := sess; flashes := []; response := Redirect EpHome |}.
Proof.
  intros Hu; unfold register, login; rewrite Hu; split; reflexivity.
Qed.

(** C2.  When the store holds a user whose e-mail is the lowercased
    submitted e-mail, a registration request leaves the store and the
    session exactly as they were; submitted by an anonymous visitor, it is
    answered with an error the user sees: the flashed message
    "Email already registered." when the form validates, the field errors
    of the re-rendered form when it does not. *)
Theorem register_duplicate_email_rejected (st : Store) (sess : Session)
    (req : Request) (u : User.t) (e : string) :
  In u (users st) ->
  RegisterForm.email (process_RegisterForm (form req)) = Some e ->
  str_lower e = User.email u ->
  store (register st sess req) = st /\
  session (register st sess req) = sess /\
  (current_user st sess = None -> method req = POST ->
   if validate (RegisterForm_fields req (process_RegisterForm (form req)))
   then
     flashes (register st sess req) = [("Email already registered.", "error")] /\
     response (register st sess req) = Redirect EpRegister
   else
     flashes (register st sess req) = [] /\
     response (register st sess req) =
       RenderRegister
         (form_errors (RegisterForm_fields req (process_RegisterForm (form req)))) /\
     form_errors (RegisterForm_fields req (process_RegisterForm (form req))) <> []).
Proof.
  intros Hin He Hlow.
  destruct (@first_filter_by_email_found (str_lower e) (users st) u Hin (eq_sym Hlow))
    as [u' Hfound].
  unfold register.
  destruct (current_user st sess) as [cu|] eqn:Hcu.
  { split; [reflexivity|]; split; [reflexivity|]; discriminate. }
  destruct (method req) eqn:Hm.
  { split; [reflexivity|]; split; [reflexivity|]; intros _; discriminate. }
  destruct (validate _) eqn:Hv.
  - rewrite He, Hfound; cbn [store session flashes response].
    split; [reflexivity|]; split; [reflexivity|].
    intros _ _; split; reflexivity.
  - cbn [store session flashes response].
    split; [reflexivity|]; split; [reflexivity|].
    intros _ _; split; [reflexivity|]; split; [reflexivity|].
    apply invalid_form_errors, Hv.
Qed.

(** C7.  An anonymous login submission that passes form validation fails
    the same way whether no user has the lowercased e-mail or the user
    found has a hash the password does not verify against: the one message
    "Invalid credentials." is flashed, the login form is rendered again
    without field errors, and the store and the session are unchanged, so
    no session is established. *)
Theorem login_failure_generic (st : Store) (sess : Session) (req : Request)
    (e pw : string) :
  current_user st sess = None ->
  method req = POST ->
  validate (LoginForm_fields req (process_LoginForm (form req))) = true ->
  LoginForm.email (process_LoginForm (form req)) = Some e ->
  LoginForm.password (process_LoginForm (form req)) = Some pw ->
  (forall u, In u (users st) -> User.email u <> str_lower e) \/
  (exists u, first (filter_by_email (str_lower e) (users st)) = Some u /\
             check_password_hash (User.password_hash u) pw = false) ->
  login st sess req =
    {| store := st; session := sess;
       flashes := [("Invalid credentials.", "error")];
       response := RenderLogin [] |} /\
  current_user (store (login st sess req)) (session (login st sess req)) = None.
Proof.
  intros Hcu Hm Hv He Hpw Hcase.
  assert (Hout : login st sess req =
    {| store := st; session := sess;
       flashes := [("Invalid credentials.", "error")];
       response := RenderLogin [] |}).
  { unfold login; rewrite Hcu, Hm, Hv, He, (validate_form_errors _ Hv).
    destruct Hcase as [Habsent|[u [Hfound Hbad]]].
    - rewrite (first_filter_by_email_absent _ Habsent); reflexivity.
    - rewrite Hfound, Hpw, Hbad; reflexivity. }
  split; [exact Hout|].
  rewrite Hout; exact Hcu.
Qed.

End Accounts.

Section Roundtrip.
Context `{PF : Platform}.

(** What an accepted registration was and did. *)
Lemma register_accepted (st : Store) (sess : Session) (req : Request) :
  flashes (register st sess req) = [("Welcome! Account created.", "success")] ->
  exists e name pw,
    validate (RegisterForm_fields req (process_RegisterForm (form req))) = true /\
    RegisterForm.email (process_RegisterForm (form req)) = Some e /\
    RegisterForm.name (process_RegisterForm (form req)) = Some name /\
    RegisterForm.password (process_RegisterForm (form req)) = Some pw /\
    first (filter_by_email (str_lower e) (users st)) = None /\
    register st sess req =
      let user :=
        {| User.id := next_id (map User.id (users st));
           User.name := name;
           User.email := str_lower e;
           User.password_hash := generate_password_hash (salt req) pw;
           User.bio := None;
           User.created_at := now req |} in
      {| store := {| users := users st ++ [user]; activities := activities st |};
         session := Some (User.id user);
         flashes := [("Welcome! Account created.", "success")];
         response := Redirect EpHome |}.
Proof.
  unfold register.
  destruct (current_user st sess); [discriminate|].
  destruct (method req); [discriminate|].
  destruct (validate _) eqn:Hv; [|discriminate].
  destruct (RegisterForm.email _) as [e|]; [|discriminate].
  destruct (first _) eqn:Hfirst; [discriminate|].
  destruct (RegisterForm.name _) as [name|]; [|discriminate].
  destruct (RegisterForm.password _) as [pw|]; [|discriminate].
  intros _; exists e, name, pw; repeat split; assumption.
Qed.

(** A valid registration with an e-mail nobody has is accepted. *)
Lemma register_accepts (st : Store) (sess : Session) (req : Request)
    (e : string) :
  current_user st sess = None ->
  method req = POST ->
  validate (RegisterForm_fields req (process_RegisterForm (form req))) = true ->
  RegisterForm.email (process_RegisterForm (form req)) = Some e ->
  (forall u, In u (users st) -> User.email u <> str_lower e) ->
  flashes (register st sess req) = [("Welcome! Account created.", "success")] /\
  response (register st sess req) = Redirect EpHome.
Proof.
  intros Hcu Hm Hv He Habsent.
  assert (Hdata : exists name pw,
    RegisterForm.name (process_RegisterForm (form req)) = Some name /\
    RegisterForm.password (process_RegisterForm (form req)) = Some pw).
  { pose proof Hv as Hv'.
    unfold RegisterForm_fields in Hv'.
    repeat rewrite validate_cons in Hv'.
    destruct Hv' as (Hname & _ & Hpass & _).
    unfold field_validate in Hname, Hpass.
    apply run_validation_chain_nil in Hname, Hpass.
    destruct Hname as [_ Hname], Hpass as [_ Hpass].
    inversion Hname as [|? ? Hn _]; inversion Hpass as [|? ? Hp _]; subst.
    apply DataRequired_pass in Hn, Hp.
    destruct Hn as [name Hn], Hp as [pw Hp]; eauto. }
  destruct Hdata as (name & pw & Hname & Hpw).
  unfold register.
  rewrite Hcu, Hm, Hv, He, (first_filter_by_email_absent _ Habsent), Hname, Hpw.
  split; reflexivity.
Qed.

(** C3.  A registration that is valid (the form validates: name, e-mail,
    password, matching confirmation) and whose lowercased e-mail no stored
    user has is accepted; the store then holds the new user under the
    lowercased e-mail, the stored hash verifies against the submitted
    password (given that the hashing library verifies what it has just
    hashed), and a login submission with the same e-mail and password
    succeeds: from a fresh session it logs the new user in, and from the
    session the registration left it is answered as already logged in. *)
Theorem registered_user_can_log_in (st : Store) (sess : Session)
    (req : Request) (e pw : string) :
  current_user st sess = None ->
  method req = POST ->
  validate (RegisterForm_fields req (process_RegisterForm (form req))) = true ->
  RegisterForm.email (process_RegisterForm (form req)) = Some e ->
  RegisterForm.password (process_RegisterForm (form req)) = Some pw ->
  (forall u, In u (users st) -> User.email u <> str_lower e) ->
  check_password_hash (generate_password_hash (salt req) pw) pw = true ->
  flashes (register st sess req) = [("Welcome! Account created.", "success")] /\
  response (register st sess req) = Redirect EpHome /\
  exists user,
    users (store (register st sess req)) = (users st ++ [user])%list /\
    User.email user = str_lower e /\
    first (filter_by_email (str_lower e) (users (store (register st sess req))))
      = Some user /\
    check_password_hash (User.password_hash user) pw = true /\
    session (register st sess req) = Some (User.id user) /\
    forall req2,
      method req2 = POST ->
      csrf_ok req2 = true ->
      LoginForm.email (process_LoginForm (form req2)) = Some e ->
      LoginForm.password (process_LoginForm (form req2)) = Some pw ->
      login (store (register st sess req)) None req2 =
        {| store := store (register st sess req);
           session := Some (User.id user);
           flashes := [("Logged in successfully.", "success")];
           response := Redirect EpHome |} /\
      login (store (register st sess req)) (session (register st sess req)) req2 =
        {| store := store (register st sess req);
           session := Some (User.id user);
           flashes := [];
           response := Redirect EpHome |}.
Proof.
  intros Hcu Hm Hvalid He Hpw Hnobody Hhash.
  destruct (@register_accepts st sess req e Hcu Hm Hvalid He Hnobody) as [Hacc Hresp].
  split; [exact Hacc|]; split; [exact Hresp|].
  destruct (register_accepted _ _ _ Hacc)
    as (e' & name & pw' & Hv & He' & Hname & Hpw' & Habsent & Hout).
  rewrite He in He'; injection He' as <-.
  rewrite Hpw in Hpw'; injection Hpw' as <-.
  rewrite Hout; cbv zeta;
    cbn [store session users User.id User.password_hash User.email].
  eexists; split; [reflexivity|].
  split; [reflexivity|].
  split; [apply first_filter_by_email_new; [exact Habsent|reflexivity]|].
  split; [exact Hhash|].
  split; [reflexivity|].
  intros req2 Hm2 Hcsrf He2 Hpw2.
  split.
  - unfold login; cbn [current_user].
    rewrite Hm2.
    rewrite (register_valid_login_valid req req2 Hv Hcsrf)
      by (rewrite ?He2, ?Hpw2; symmetry; assumption).
    rewrite He2; cbn [users].
    rewrite first_filter_by_email_new by (assumption || reflexivity).
    rewrite Hpw2; cbn [User.password_hash User.id]; rewrite Hhash.
    reflexivity.
  - unfold login; cbn [current_user].
    match goal with
    | |- context [(users st ++ [?u])%list] =>
        pose proof (@get_user_new PF st u (activities st) eq_refl) as Hget
    end.
    cbn [User.id] in Hget; rewrite Hget.
    reflexivity.
Qed.

End Roundtrip.

Section Posting.
Context `{PF : Platform}.

(** ** Posting an activity *)

(** A post that validates has a title. *)
Lemma valid_post_has_title (req : Request) :
  validate (ActivityForm_fields req (process_ActivityForm (form req))) = true ->
  exists title, ActivityForm.title (process_ActivityForm (form req)) = Some title.
Proof.
  intros Hv.
  unfold ActivityForm_fields in Hv.
  rewrite validate_cons in Hv; destruct Hv as [Htitle _].
  unfold field_validate in Htitle.
  apply run_validation_chain_nil in Htitle; destruct Htitle as [_ Htitle].
  inversion Htitle as [|? ? Hreq _]; subst.
  apply DataRequired_pass, Hreq.
Qed.

(** C8.  Without an active session, [/create] answers with a redirect to
    the login page, and the store (and with it the activity table) is
    exactly what it was, for every request. *)
Theorem create_requires_login (st : Store) (sess : Session) (req : Request) :
  current_user st sess = None ->
  response (create st sess req) = Redirect EpLogin /\
  store (create st sess req) = st /\
  activities (store (create st sess req)) = activities st.
Proof.
  intros Hcu; unfold create; rewrite Hcu.
  repeat split.
Qed.

(** C6 (what the code does).  A latitude or longitude submitted as the
    empty string is not taken as absent: [float("")] raises, the field gets
    the error "Not a valid float value", the form fails validation, and
    nothing is stored. *)
Theorem create_rejects_empty_coordinate (st : Store) (sess : Session)
    (req : Request) (user : User.t) :
  current_user st sess = Some user ->
  method req = POST ->
  py_float "" = None ->
  string_field (getlist "latitude" (form req)) = Some "" \/
  string_field (getlist "longitude" (form req)) = Some "" ->
  store (create st sess req) = st /\
  exists errors,
    response (create st sess req) = RenderCreate errors /\
    (In ("latitude", [ErrFloat]) errors \/ In ("longitude", [ErrFloat]) errors).
Proof.
  intros Hcu Hm Hfloat Hempty.
  assert (Hfield : forall name,
    string_field (getlist name (form req)) = Some "" ->
    float_field (getlist name (form req)) = (None, [ErrFloat])).
  { intros name H; unfold float_field.
    destruct (getlist name (form req)) as [|v l]; [discriminate|].
    injection H as ->; rewrite Hfloat; reflexivity. }
  assert (Hin : In ("latitude", [ErrFloat])
                  (ActivityForm_fields req (process_ActivityForm (form req))) \/
                In ("longitude", [ErrFloat])
                  (ActivityForm_fields req (process_ActivityForm (form req)))).
  { unfold ActivityForm_fields, process_ActivityForm.
    cbn [ActivityForm.latitude_process_errors ActivityForm.longitude_process_errors].
    destruct Hempty as [H|H]; rewrite (Hfield _ H); cbn [snd In]; tauto. }
  assert (Hv : validate (ActivityForm_fields req (process_ActivityForm (form req)))
               = false).
  { unfold validate.
    destruct (forallb _ _) eqn:E; [|reflexivity].
    rewrite forallb_forall in E.
    destruct Hin as [H|H]; apply E in H; discriminate. }
  unfold create; rewrite Hcu, Hm, Hv; cbn [store response].
  split; [reflexivity|].
  eexists; split; [reflexivity|].
  unfold form_errors.
  destruct Hin as [H|H]; [left|right]; apply filter_In; split;
    solve [assumption | reflexivity].
Qed.

(** A coordinate the request leaves out altogether is stored as absent. *)
Lemma create_omitted_coordinate_absent (st : Store) (sess : Session)
    (req : Request) (user : User.t) :
  current_user st sess = Some user ->
  method req = POST ->
  validate (ActivityForm_fields req (process_ActivityForm (form req))) = true ->
  exists act,
    activities (store (create st sess req)) = (activities st ++ [act])%list /\
    (getlist "latitude" (form req) = [] -> Activity.latitude act = None) /\
    (getlist "longitude" (form req) = [] -> Activity.longitude act = None).
Proof.
  intros Hcu Hm Hv.
  destruct (valid_post_has_title _ Hv) as [title Htitle].
  unfold create; rewrite Hcu, Hm, Hv, Htitle.
  cbn [store activities].
  eexists; split; [reflexivity|].
  cbn [Activity.latitude Activity.longitude process_ActivityForm
       ActivityForm.latitude ActivityForm.longitude].
  split; intros ->; reflexivity.
Qed.

(** C9, amended.  The visibility a post is stored with is the value of
    the form's checkbox, not the column default: a submission that
    validates is stored public exactly when it carries an [is_public]
    value other than "false" and the empty string, and one that carries no
    [is_public] value at all, which is what an unticked checkbox sends, is
    stored private. *)
Theorem create_visibility_from_checkbox (st : Store) (sess : Session)
    (req : Request) (user : User.t) :
  current_user st sess = Some user ->
  method req = POST ->
  validate (ActivityForm_fields req (process_ActivityForm (form req))) = true ->
  exists act,
    activities (store (create st sess req)) = (activities st ++ [act])%list /\
    Activity.is_public act = boolean_field (getlist "is_public" (form req)) /\
    (getlist "is_public" (form req) = [] -> Activity.is_public act = false).
Proof.
  intros Hcu Hm Hv.
  destruct (valid_post_has_title _ Hv) as [title Htitle].
  unfold create; rewrite Hcu, Hm, Hv, Htitle.
  cbn [store activities].
  eexists; split; [reflexivity|].
  cbn [Activity.is_public column_default process_ActivityForm ActivityForm.is_public].
  split; [reflexivity|].
  intros ->; reflexivity.
Qed.

End Posting.

Section Shapes.
Context `{PF : Platform}.

(** ** What each writing handler can have done *)

Lemma get_user_In (st : Store) (pk : Z) (u : User.t) :
  get_user st pk = Some u -> In u (users st) /\ User.id u = pk.
Proof.
  unfold get_user; intros H; apply find_some in H.
  destruct H as [Hin H]; apply Z.eqb_eq in H; split; assumption.
Qed.

Lemma get_user_of_In (st : Store) (u : User.t) :
  In u (users st) -> exists u', get_user st (User.id u) = Some u'.
Proof.
  unfold get_user; intros Hin.
  destruct (find _ (users st)) as [u'|] eqn:E; [exists u'; reflexivity|].
  pose proof (find_none _ _ E u Hin) as H; simpl in H.
  rewrite Z.eqb_refl in H; discriminate.
Qed.

Lemma register_cases (st : Store) (sess : Session) (req : Request) :
  (store (register st sess req) = st /\ session (register st sess req) = sess) \/
  flashes (register st sess req) = [("Welcome! Account created.", "success")].
Proof.
  unfold register.
  destruct (current_user st sess); [left; split; reflexivity|].
  destruct (method req); [left; split; reflexivity|].
  destruct (validate _); [|left; split; reflexivity].
  destruct (RegisterForm.email _); [|left; split; reflexivity].
  destruct (first _); [left; split; reflexivity|].
  destruct (RegisterForm.name _); [|left; split; reflexivity].
  destruct (RegisterForm.password _); [|left; split; reflexivity].
  right; reflexivity.
Qed.

(** What a post that was accepted was and did. *)
Lemma create_posted (st : Store) (sess : Session) (req : Request) :
  flashes (create st sess req) = [("Activity posted.", "success")] ->
  exists user title,
    current_user st sess = Some user /\
    validate (ActivityForm_fields req (process_ActivityForm (form req))) = true /\
    ActivityForm.title (process_ActivityForm (form req)) = Some title /\
    create st sess req =
      let f := process_ActivityForm (form req) in
      let act :=
        {| Activity.id := next_id (map Activity.id (activities st));
           Activity.user_id := User.id user;
           Activity.title := title;
           Activity.description := ActivityForm.description f;
           Activity.is_public := ActivityForm.is_public f;
           Activity.mood := ActivityForm.mood f;
           Activity.category := ActivityForm.category f;
           Activity.latitude := ActivityForm.latitude f;
           Activity.longitude := ActivityForm.longitude f;
           Activity.location_text := ActivityForm.location_text f;
           Activity.created_at := now req |} in
      {| store := {| users := users st; activities := activities st ++ [act] |};
         session := sess;
         flashes := [("Activity posted.", "success")];
         response := Redirect EpHome |}.
Proof.
  unfold create, unauthorized.
  destruct (current_user st sess) as [user|]; [|discriminate].
  destruct (method req); [discriminate|].
  destruct (validate _) eqn:Hv; [|discriminate].
  destruct (ActivityForm.title _) as [title|] eqn:Ht; [|discriminate].
  intros _; exists user, title.
  repeat split; try assumption.
  cbv zeta; unfold column_default, blank_to_none.
  destruct (ActivityForm.latitude _), (ActivityForm.longitude _); reflexivity.
Qed.

Lemma create_cases (st : Store) (sess : Session) (req : Request) :
  (store (create st sess req) = st /\ session (create st sess req) = sess) \/
  flashes (create st sess req) = [("Activity posted.", "success")].
Proof.
  unfold create, unauthorized.
  destruct (current_user st sess); [|left; split; reflexivity].
  destruct (method req); [left; split; reflexivity|].
  destruct (validate _); [|left; split; reflexivity].
  destruct (ActivityForm.title _); [|left; split; reflexivity].
  right; reflexivity.
Qed.

Lemma login_store (st : Store) (sess : Session) (req : Request) :
  store (login st sess req) = st.
Proof.
  unfold login.
  destruct (current_user st sess); [reflexivity|].
  destruct (method req); [reflexivity|].
  destruct (validate _); [|reflexivity].
  destruct (LoginForm.email _); [|reflexivity].
  destruct (first _); [|reflexivity].
  destruct (LoginForm.password _); [|reflexivity].
  destruct (check_password_hash _ _); reflexivity.
Qed.

Lemma logout_store (st : Store) (sess : Session) :
  store (logout st sess) = st.
Proof. unfold logout, unauthorized; destruct (current_user st sess); reflexivity. Qed.

Lemma me_store (st : Store) (sess : Session) :
  store (me st sess) = st /\ session (me st sess) = sess.
Proof.
  unfold me, unauthorized; destruct (current_user st sess); split; reflexivity.
Qed.

Lemma NoDup_snoc (A : Type) (l : list A) (x : A) :
  NoDup l -> ~ In x l -> NoDup (l ++ [x]).
Proof.
  intros Hl Hx.
  apply (Permutation_NoDup (l := x :: l)).
  - apply Permutation_cons_append.
  - constructor; assumption.
Qed.

Lemma next_id_fresh (ids : list Z) : ~ In (next_id ids) ids.
Proof. intros H; apply next_id_above in H; lia. Qed.

Lemma first_filter_by_email_notin (e : string) (us : list User.t) :
  first (filter_by_email e us) = None -> ~ In e (map User.email us).
Proof.
  intros Hnone Hin.
  apply in_map_iff in Hin; destruct Hin as (u & He & Hin).
  destruct (@first_filter_by_email_found e us u Hin He) as [u' Hu'].
  congruence.
Qed.

End Shapes.

Section Invariants.
Context `{PF : Platform}.

(** ** Consistency of the store *)

Lemma register_store_ok (st : Store) (sess : Session) (req : Request) :
  store_ok st -> store_ok (store (register st sess req)).
Proof.
  intros Hok.
  destruct (register_cases st sess req) as [[-> _]|Hacc]; [exact Hok|].
  destruct (register_accepted _ _ _ Hacc)
    as (e & name & pw & _ & _ & _ & _ & Habsent & ->).
  destruct Hok as (Hids & Hemails & Hacts & Hfk).
  cbv zeta; unfold store_ok; cbn [store users activities].
  rewrite !map_app; cbn [map User.id User.email].
  split; [apply NoDup_snoc; [exact Hids|apply next_id_fresh]|].
  split; [apply NoDup_snoc;
          [exact Hemails|apply first_filter_by_email_notin, Habsent]|].
  split; [exact Hacts|].
  intros a Ha; destruct (Hfk a Ha) as (u & Hu & Hid).
  exists u; split; [apply in_or_app; left; exact Hu|exact Hid].
Qed.

Lemma create_store_ok (st : Store) (sess : Session) (req : Request) :
  store_ok st -> store_ok (store (create st sess req)).
Proof.
  intros Hok.
  destruct (create_cases st sess req) as [[-> _]|Hposted]; [exact Hok|].
  destruct (create_posted _ _ _ Hposted) as (user & title & Hcu & _ & _ & ->).
  destruct Hok as (Hids & Hemails & Hacts & Hfk).
  cbv zeta; unfold store_ok; cbn [store users activities].
  rewrite !map_app; cbn [map Activity.id].
  split; [exact Hids|]; split; [exact Hemails|].
  split; [apply NoDup_snoc; [exact Hacts|apply next_id_fresh]|].
  intros a Ha; apply in_app_or in Ha; destruct Ha as [Ha|[<-|[]]].
  - exact (Hfk a Ha).
  - cbn [Activity.user_id].
    unfold current_user in Hcu; destruct sess as [uid|]; [|discriminate].
    apply get_user_In in Hcu; destruct Hcu as [Hin _].
    exists user; split; [exact Hin|reflexivity].
Qed.

Lemma dispatch_store_ok (c : Call) (st : Store) (sess : Session) :
  store_ok st -> store_ok (store (dispatch c st sess)).
Proof.
  intros Hok; destruct c as [req|req| | |req]; cbn [dispatch].
  - apply register_store_ok, Hok.
  - rewrite login_store; exact Hok.
  - rewrite logout_store; exact Hok.
  - rewrite (proj1 (me_store st sess)); exact Hok.
  - apply create_store_ok, Hok.
Qed.

Lemma serve_store_ok (trace : list (Session * Call)) (st : Store) :
  store_ok st -> store_ok (serve trace st).
Proof.
  revert st; induction trace as [|[sess c] trace IH]; intros st Hok; simpl.
  - exact Hok.
  - apply IH, dispatch_store_ok, Hok.
Qed.

Lemma empty_store_ok : store_ok {| users := []; activities := [] |}.
Proof.
  unfold store_ok; cbn [users activities map].
  repeat split; try constructor.
  intros a [].
Qed.

(** With every owner in the user table, the list comprehension of
    [api_feed] finds the author of every row. *)
Lemma feed_items_total (st : Store) (l : list Activity.t) :
  (forall a, In a l -> exists u, get_user st (Activity.user_id a) = Some u) ->
  exists items, feed_items st l = Some items.
Proof.
  induction l as [|a l IH]; intros H; simpl.
  - exists []; reflexivity.
  - destruct IH as [items Hitems].
    { intros b Hb; apply H; right; exact Hb. }
    destruct (H a (or_introl eq_refl)) as [u Hu].
    unfold feed_item; rewrite Hu, Hitems; eauto.
Qed.

Lemma api_feed_json (st : Store) :
  store_ok st ->
  exists items,
    api_feed st = Json items /\
    List.length items = List.length (api_feed_items st).
Proof.
  intros (_ & _ & _ & Hfk).
  destruct (@feed_items_total st (api_feed_items st)) as [items Hitems].
  { intros a Ha; unfold api_feed_items in Ha.
    apply limit_In in Ha; apply (proj1 (order_by_In _ _)) in Ha.
    apply filter_by_public_In in Ha; destruct Ha as [Ha _].
    destruct (Hfk a Ha) as (u & Hu & Hid).
    rewrite <- Hid; apply get_user_of_In, Hu. }
  exists items; split.
  - unfold api_feed; rewrite Hitems; reflexivity.
  - apply feed_items_length in Hitems; exact Hitems.
Qed.

(** X1.  Every request keeps the store consistent, and so does every
    sequence of requests, whatever sessions they arrive with: user ids,
    e-mails and activity ids stay unique, and every activity keeps an owner
    in the user table. *)
Theorem store_stays_consistent (trace : list (Session * Call)) (c : Call)
    (st : Store) (sess : Session) :
  store_ok st ->
  store_ok (store (dispatch c st sess)) /\ store_ok (serve trace st).
Proof.
  intros Hok; split; [apply dispatch_store_ok|apply serve_store_ok]; exact Hok.
Qed.

(** X2.  After any sequence of requests served from the empty store,
    [/api/feed] answers with a JSON array, one entry per row of its query:
    the author lookup of the serialisation cannot fail. *)
Theorem api_feed_answers_after_any_requests (trace : list (Session * Call)) :
  exists items,
    api_feed (serve trace {| users := []; activities := [] |}) = Json items /\
    List.length items =
    List.length (api_feed_items (serve trace {| users := []; activities := [] |})).
Proof.
  apply api_feed_json, serve_store_ok, empty_store_ok.
Qed.

(** ** Sessions *)

Lemma get_user_grows (st : Store) (pk : Z) (u u2 : User.t)
    (acts : list Activity.t) :
  get_user st pk = Some u ->
  get_user {| users := users st ++ [u2]; activities := acts |} pk = Some u.
Proof.
  unfold get_user; cbn [users].
  induction (users st) as [|v us IH]; simpl; [discriminate|].
  destruct (User.id v =? pk)%Z; [trivial|exact IH].
Qed.

Lemma login_succeeded (st : Store) (sess : Session) (req : Request) :
  session (login st sess req) = sess \/
  exists user e pw,
    LoginForm.email (process_LoginForm (form req)) = Some e /\
    LoginForm.password (process_LoginForm (form req)) = Some pw /\
    In user (users st) /\
    User.email user = str_lower e /\
    check_password_hash (User.password_hash user) pw = true /\
    session (login st sess req) = Some (User.id user).
Proof.
  unfold login.
  destruct (current_user st sess); [left; reflexivity|].
  destruct (method req); [left; reflexivity|].
  destruct (validate _); [|left; reflexivity].
  destruct (LoginForm.email _) as [e|]; [|left; reflexivity].
  destruct (first _) as [user|] eqn:Hfirst; [|left; reflexivity].
  destruct (LoginForm.password _) as [pw|]; [|left; reflexivity].
  destruct (check_password_hash _ _) eqn:Hcheck; [|left; reflexivity].
  right; exists user, e, pw.
  assert (Hin : In user (filter_by_email (str_lower e) (users st))).
  { unfold first in Hfirst.
    destruct (filter_by_email _ _) as [|x l]; [discriminate|].
    injection Hfirst as ->; left; reflexivity. }
  unfold filter_by_email in Hin; apply filter_In in Hin.
  destruct Hin as [Hin He]; apply String.eqb_eq in He.
  repeat split; assumption || reflexivity.
Qed.

(** X3.  A sound session stays sound: after any request, the session the
    client is left with is empty or holds the id of a user of the store. *)
Theorem sessions_stay_sound (c : Call) (st : Store) (sess : Session) :
  session_ok st sess ->
  session_ok (store (dispatch c st sess)) (session (dispatch c st sess)).
Proof.
  intros Hok; destruct c as [req|req| | |req]; cbn [dispatch].
  - destruct (register_cases st sess req) as [[-> ->]|Hacc]; [exact Hok|].
    destruct (register_accepted _ _ _ Hacc)
      as (e & name & pw & _ & _ & _ & _ & _ & ->).
    cbv zeta; cbn [store session session_ok].
    eexists.
    match goal with
    | |- context [(users st ++ [?u])%list] =>
        exact (@get_user_new PF st u (activities st) eq_refl)
    end.
  - rewrite login_store.
    destruct (login_succeeded st sess req)
      as [->|(user & e & pw & _ & _ & Hin & _ & _ & ->)]; [exact Hok|].
    cbn [session_ok]; apply get_user_of_In, Hin.
  - rewrite logout_store.
    unfold logout, unauthorized.
    destruct (current_user st sess); cbn [session]; [exact I|exact Hok].
  - destruct (me_store st sess) as [-> ->]; exact Hok.
  - destruct (create_cases st sess req) as [[-> ->]|Hposted]; [exact Hok|].
    destruct (create_posted _ _ _ Hposted) as (user & title & _ & _ & _ & ->).
    cbv zeta; cbn [store session].
    destruct sess as [uid|]; [|exact I].
    destruct Hok as [u Hu]; exists u.
    unfold get_user in *; exact Hu.
Qed.

(** X4.  For a request with a urlencoded form, no handler fails on a
    missing form value.  A form that validates carries every value its
    handler reads: name, e-mail, password and the equal confirmation for
    registration, e-mail and password for login, the title for a post.  So
    [form.email.data.lower()], [generate_password_hash(form.password.data)],
    [check_password(form.password.data)] and the non-null [name] and
    [title] columns never meet [None], and the response of [/register],
    [/login], [/logout], [/me] and [/create] is never the error that such a
    [None] would raise. *)
Theorem validated_forms_carry_their_data (c : Call) (st : Store)
    (sess : Session) (req : Request) :
  (validate (RegisterForm_fields req (process_RegisterForm (form req))) = true ->
   exists name e pw,
     RegisterForm.name (process_RegisterForm (form req)) = Some name /\
     RegisterForm.email (process_RegisterForm (form req)) = Some e /\
     RegisterForm.password (process_RegisterForm (form req)) = Some pw /\
     RegisterForm.confirm (process_RegisterForm (form req)) = Some pw) /\
  (validate (LoginForm_fields req (process_LoginForm (form req))) = true ->
   exists e pw,
     LoginForm.email (process_LoginForm (form req)) = Some e /\
     LoginForm.password (process_LoginForm (form req)) = Some pw) /\
  (validate (ActivityForm_fields req (process_ActivityForm (form req))) = true ->
   exists title,
     ActivityForm.title (process_ActivityForm (form req)) = Some title) /\
  crashed (response (dispatch c st sess)) = false.
Proof.
  split.
  { intros Hv.
    unfold RegisterForm_fields in Hv.
    repeat rewrite validate_cons in Hv.
    destruct Hv as (Hname & Hemail & Hpass & Hconf & _).
    unfold field_validate in Hname, Hemail, Hpass, Hconf.
    apply run_validation_chain_nil in Hname, Hemail, Hpass, Hconf.
    destruct Hname as [_ Hname], Hemail as [_ Hemail],
             Hpass as [_ Hpass], Hconf as [_ Hconf].
    inversion Hname as [|? ? Hn _]; inversion Hemail as [|? ? He _];
      inversion Hpass as [|? ? Hp _];
      inversion Hconf as [|? ? _ Hc']; inversion Hc' as [|? ? Hc _]; subst.
    apply DataRequired_pass in Hn, He, Hp.
    destruct Hn as [n Hn], He as [e He], Hp as [p Hp].
    exists n, e, p; repeat split; try assumption.
    unfold EqualTo in Hc.
    cbn [process_RegisterForm RegisterForm.password] in Hp; rewrite Hp in Hc.
    destruct (RegisterForm.confirm _) as [k|]; simpl in Hc; [|discriminate].
    destruct (String.eqb k p) eqn:E; [|discriminate].
    apply String.eqb_eq in E; rewrite E; reflexivity. }
  split.
  { intros Hv.
    unfold LoginForm_fields in Hv.
    repeat rewrite validate_cons in Hv.
    destruct Hv as (Hemail & Hpass & _).
    unfold field_validate in Hemail, Hpass.
    apply run_validation_chain_nil in Hemail, Hpass.
    destruct Hemail as [_ Hemail], Hpass as [_ Hpass].
    inversion Hemail as [|? ? He _]; inversion Hpass as [|? ? Hp _]; subst.
    apply DataRequired_pass in He, Hp.
    destruct He as [e He], Hp as [p Hp]; eauto. }
  split; [apply valid_post_has_title|].
  clear req.
  destruct c as [req|req| | |req]; cbn [dispatch].
  - unfold register.
    destruct (current_user st sess); [reflexivity|].
    destruct (method req); [reflexivity|].
    destruct (validate _) eqn:Hv; [|reflexivity].
    unfold RegisterForm_fields in Hv.
    repeat rewrite validate_cons in Hv.
    destruct Hv as (Hname & Hemail & Hpass & _).
    unfold field_validate in Hname, Hemail, Hpass.
    apply run_validation_chain_nil in Hname, Hemail, Hpass.
    destruct Hname as [_ Hname], Hemail as [_ Hemail], Hpass as [_ Hpass].
    inversion Hname as [|? ? Hn _]; inversion Hemail as [|? ? He _];
      inversion Hpass as [|? ? Hp _]; subst.
    apply DataRequired_pass in Hn, He, Hp.
    destruct Hn as [n ->], He as [e ->], Hp as [p ->].
    destruct (first _); reflexivity.
  - unfold login.
    destruct (current_user st sess); [reflexivity|].
    destruct (method req); [reflexivity|].
    destruct (validate _) eqn:Hv; [|reflexivity].
    unfold LoginForm_fields in Hv.
    repeat rewrite validate_cons in Hv.
    destruct Hv as (Hemail & Hpass & _).
    unfold field_validate in Hemail, Hpass.
    apply run_validation_chain_nil in Hemail, Hpass.
    destruct Hemail as [_ Hemail], Hpass as [_ Hpass].
    inversion Hemail as [|? ? He _]; inversion Hpass as [|? ? Hp _]; subst.
    apply DataRequired_pass in He, Hp.
    destruct He as [e ->], Hp as [p ->].
    destruct (first _); [|reflexivity].
    destruct (check_password_hash _ _); reflexivity.
  - unfold logout, unauthorized; destruct (current_user st sess); reflexivity.
  - unfold me, unauthorized; destruct (current_user st sess); reflexivity.
  - unfold create, unauthorized.
    destruct (current_user st sess); [|reflexivity].
    destruct (method req); [reflexivity|].
    destruct (validate _) eqn:Hv; [|reflexivity].
    destruct (valid_post_has_title _ Hv) as [title ->].
    reflexivity.
Qed.

(** X5.  The store only grows: a request appends at most one row, a
    user or an activity, and after any sequence of requests the rows that
    were there are still there, unchanged and in their place. *)
Theorem store_only_grows (trace : list (Session * Call)) (c : Call)
    (st : Store) (sess : Session) :
  (exists us acts,
      users (store (dispatch c st sess)) = (users st ++ us)%list /\
      activities (store (dispatch c st sess)) = (activities st ++ acts)%list /\
      (List.length us + List.length acts <= 1)%nat) /\
  (exists us acts,
      users (serve trace st) = (users st ++ us)%list /\
      activities (serve trace st) = (activities st ++ acts)%list).
Proof.
  assert (Hstep : forall c st sess,
    exists us acts,
      users (store (dispatch c st sess)) = (users st ++ us)%list /\
      activities (store (dispatch c st sess)) = (activities st ++ acts)%list /\
      (List.length us + List.length acts <= 1)%nat).
  { clear; intros c st sess.
    assert (Hsame : forall o, store o = st ->
      exists us acts, users (store o) = (users st ++ us)%list /\
                      activities (store o) = (activities st ++ acts)%list /\
                      (List.length us + List.length acts <= 1)%nat).
    { intros o ->; exists [], []; rewrite !app_nil_r; simpl; auto. }
    destruct c as [req|req| | |req]; cbn [dispatch].
    - destruct (register_cases st sess req) as [[H _]|Hacc]; [apply Hsame, H|].
      destruct (register_accepted _ _ _ Hacc)
        as (e & name & pw & _ & _ & _ & _ & _ & ->).
      cbv zeta; cbn [store users activities].
      eexists [_], []; rewrite app_nil_r; simpl; auto.
    - apply Hsame, login_store.
    - apply Hsame, logout_store.
    - apply Hsame, me_store.
    - destruct (create_cases st sess req) as [[H _]|Hposted]; [apply Hsame, H|].
      destruct (create_posted _ _ _ Hposted) as (user & title & _ & _ & _ & ->).
      cbv zeta; cbn [store users activities].
      eexists [], [_]; rewrite app_nil_r; simpl; auto. }
  split; [apply Hstep|].
  revert st; induction trace as [|[s' c'] trace IH]; intros st; simpl.
  - exists [], []; rewrite !app_nil_r; auto.
  - destruct (Hstep c' st s') as (us1 & acts1 & Hu1 & Ha1 & _).
    destruct (IH (store (dispatch c' st s'))) as (us2 & acts2 & Hu2 & Ha2).
    exists (us1 ++ us2)%list, (acts1 ++ acts2)%list.
    rewrite Hu2, Ha2, Hu1, Ha1, !app_assoc; auto.
Qed.

End Invariants.

Section Listings.
Context `{PF : Platform}.

(** ** What the listings hold *)

Lemma skipn_In (A : Type) (n : nat) (x : A) (l : list A) :
  In x (skipn n l) -> In x l.
Proof.
  revert n; induction l as [|a l IH]; intros [|n]; simpl; try tauto.
  intros H; right; exact (IH n H).
Qed.

(** Cutting a list sorted newest first keeps the newest. *)
Lemma limit_keeps_newest (n : nat) (l : list Activity.t) (a b : Activity.t) :
  sorted_desc l -> In a (limit n l) -> In b (skipn n l) ->
  (Activity.created_at b <= Activity.created_at a)%Z.
Proof.
  unfold sorted_desc, limit; intros Hs; revert n.
  induction Hs as [|x l Hs IH Hx]; intros [|n]; simpl; try tauto.
  intros [<-|Ha] Hb.
  - rewrite Forall_forall in Hx; apply Hx, (skipn_In n), Hb.
  - exact (IH n Ha Hb).
Qed.

Lemma feed_items_limit (st : Store) (n : nat) (l : list Activity.t)
    (items : list FeedItem) :
  feed_items st l = Some items ->
  feed_items st (limit n l) = Some (limit n items).
Proof.
  unfold limit; revert n items.
  induction l as [|a l IH]; intros [|n] items; simpl; intros H;
    try reflexivity.
  - injection H as <-; reflexivity.
  - destruct (feed_item st a) as [it|]; [|discriminate].
    destruct (feed_items st l) as [its|]; [|discriminate].
    injection H as <-; simpl.
    rewrite (IH n its eq_refl); reflexivity.
Qed.


(** X7.  [/me] sends an anonymous visitor to the login page; to a logged-in
    user it lists every activity that user owns, public or private, each
    as often as the table holds it, and nothing else. *)
Theorem me_lists_own_activities (st : Store) (sess : Session) :
  (current_user st sess = None ->
   response (me st sess) = Redirect EpLogin) /\
  (forall user,
      current_user st sess = Some user ->
      exists mine,
        response (me st sess) = RenderMe mine /\
        Permutation mine (filter_by_user (User.id user) (activities st)) /\
        forall a, In a mine <->
                  In a (activities st) /\ Activity.user_id a = User.id user).
Proof.
  unfold me, unauthorized; split.
  - intros ->; reflexivity.
  - intros user ->; cbn [response].
    eexists; split; [reflexivity|]; unfold my_activities; split.
    + apply Permutation_sym, order_by_perm.
    + intros a; rewrite order_by_In, filter_by_user_In; tauto.
Qed.

(** X8.  The home page shows the newest public activities: a public
    activity of the store that the feed leaves out was created no later
    than any activity the feed shows; and while the store holds at most 50
    public activities the feed shows them all. *)
Theorem home_feed_shows_newest (st : Store) :
  (forall a b,
      In a (home_feed st) ->
      In b (activities st) -> Activity.is_public b = true ->
      ~ In b (home_feed st) ->
      (Activity.created_at b <= Activity.created_at a)%Z) /\
  ((List.length (filter_by_public (activities st)) <= 50)%nat ->
   Permutation (home_feed st) (filter_by_public (activities st))).
Proof.
  unfold home_feed; split.
  - intros a b Ha Hb Hpub Hout.
    apply (@limit_keeps_newest 50
             (order_by_created_at_desc (filter_by_public (activities st))));
      [apply order_by_sorted|exact Ha|].
    assert (Hin : In b (order_by_created_at_desc
                          (filter_by_public (activities st)))).
    { apply order_by_In, filter_by_public_In; split; assumption. }
    rewrite <- (firstn_skipn 50) in Hin.
    apply in_app_or in Hin; destruct Hin as [Hin|Hin]; [|exact Hin].
    exfalso; exact (Hout Hin).
  - intros Hlen.
    rewrite limit_short.
    + apply Permutation_sym, order_by_perm.
    + rewrite <- (Permutation_length (order_by_perm _)); exact Hlen.
Qed.

Lemma NoDup_map_eq (A B : Type) (f : A -> B) (l : list A) (x y : A) :
  NoDup (map f l) -> In x l -> In y l -> f x = f y -> x = y.
Proof.
  induction l as [|a l IH]; simpl; intros Hnd Hx Hy Hf; [contradiction|].
  inversion Hnd as [|? ? Ha Hnd']; subst.
  destruct Hx as [->|Hx], Hy as [->|Hy].
  - reflexivity.
  - exfalso; apply Ha; rewrite Hf; apply in_map, Hy.
  - exfalso; apply Ha; rewrite <- Hf; apply in_map, Hx.
  - apply IH; assumption.
Qed.

(** With pairwise different timestamps, "newest first" leaves one order
    only. *)
Lemma sorted_desc_unique (l1 l2 : list Activity.t) :
  NoDup (map Activity.created_at l1) ->
  Permutation l1 l2 -> sorted_desc l1 -> sorted_desc l2 -> l1 = l2.
Proof.
  unfold sorted_desc; revert l2.
  induction l1 as [|a l1 IH]; intros l2 Hnd Hp Hs1 Hs2.
  - apply Permutation_nil in Hp; symmetry; exact Hp.
  - destruct l2 as [|b l2];
      [apply Permutation_sym, Permutation_nil in Hp; discriminate|].
    assert (Hab : a = b).
    { assert (Ha : In a (b :: l2))
        by (apply (Permutation_in _ Hp); left; reflexivity).
      assert (Hb : In b (a :: l1))
        by (apply (Permutation_in _ (Permutation_sym Hp)); left; reflexivity).
      inversion Hs1 as [|? ? _ H1]; inversion Hs2 as [|? ? _ H2]; subst.
      rewrite Forall_forall in H1, H2.
      apply (NoDup_map_eq Activity.created_at (a :: l1));
        [exact Hnd|left; reflexivity|exact Hb|].
      destruct Ha as [->|Ha]; [reflexivity|].
      destruct Hb as [->|Hb]; [reflexivity|].
      specialize (H1 b Hb); specialize (H2 a Ha); lia. }
    subst b; f_equal.
    apply Permutation_cons_inv in Hp.
    inversion Hnd; inversion Hs1; inversion Hs2; subst.
    apply IH; assumption.
Qed.

Lemma order_by_determined (l rows : list Activity.t) :
  NoDup (map Activity.created_at l) ->
  Permutation rows l -> sorted_desc rows ->
  rows = order_by_created_at_desc l.
Proof.
  intros Hnd Hp Hs.
  apply sorted_desc_unique.
  - apply (Permutation_NoDup (l := map Activity.created_at l));
      [apply Permutation_map, Permutation_sym, Hp|exact Hnd].
  - eapply perm_trans; [exact Hp|apply order_by_perm].
  - exact Hs.
  - apply order_by_sorted.
Qed.

(** X9.  While the public activities have pairwise different creation
    times, the home page and the API agree, in whatever order the database
    would return rows of equal time: the home page renders the first 50,
    and the API serialises the first 100, of the one list of the public
    activities that is sorted newest first; so the home page renders the
    first 50 rows of the API's query, and when the API answers with its
    JSON array the first 50 entries of the array serialise the feed of the
    page. *)
Theorem home_feed_prefix_of_api (st : Store) :
  NoDup (map Activity.created_at (filter_by_public (activities st))) ->
  (forall rows,
      Permutation rows (filter_by_public (activities st)) ->
      sorted_desc rows ->
      home st = RenderHome (limit 50 rows) /\
      api_feed_items st = limit 100 rows) /\
  home st = RenderHome (limit 50 (api_feed_items st)) /\
  (forall items,
      api_feed st = Json items ->
      feed_items st (home_feed st) = Some (limit 50 items)).
Proof.
  intros Hnd.
  assert (H : home_feed st = limit 50 (api_feed_items st)).
  { unfold home_feed, api_feed_items, limit.
    rewrite firstn_firstn; reflexivity. }
  split.
  { intros rows Hp Hs.
    rewrite (order_by_determined Hnd Hp Hs).
    split; reflexivity. }
  split; [unfold home; rewrite H; reflexivity|].
  intros items Hjson; rewrite H.
  apply feed_items_limit, api_feed_serialises, Hjson.
Qed.

End Listings.

Section Access.
Context `{PF : Platform}.

(** ** Logging in and out *)

(** X10.  [/logout] sends an anonymous visitor to the login page and
    leaves the session alone; for a logged-in user it empties the session
    and keeps the store, after which [/me] and [/create] answer with the
    redirect to the login page and [/create] stores nothing. *)
Theorem logout_ends_session (st : Store) (sess : Session) :
  (current_user st sess = None ->
   response (logout st sess) = Redirect EpLogin /\
   session (logout st sess) = sess /\ store (logout st sess) = st) /\
  (forall user,
      current_user st sess = Some user ->
      store (logout st sess) = st /\
      session (logout st sess) = None /\
      response (logout st sess) = Redirect EpHome /\
      response (me (store (logout st sess)) (session (logout st sess)))
        = Redirect EpLogin /\
      forall req,
        response (create (store (logout st sess)) (session (logout st sess)) req)
          = Redirect EpLogin /\
        store (create (store (logout st sess)) (session (logout st sess)) req)
          = st).
Proof.
  unfold logout, unauthorized; split.
  - intros ->; repeat split.
  - intros user ->; cbn [store session response].
    repeat split.
Qed.

(** X11.  [/login] never writes the store, and it changes the session
    only to log in a user of the store whose e-mail is the lowercased
    submitted e-mail and whose stored hash verifies the submitted
    password. *)
Theorem login_only_on_verified_password (st : Store) (sess : Session)
    (req : Request) :
  store (login st sess req) = st /\
  (session (login st sess req) = sess \/
   exists user e pw,
     LoginForm.email (process_LoginForm (form req)) = Some e /\
     LoginForm.password (process_LoginForm (form req)) = Some pw /\
     In user (users st) /\
     User.email user = str_lower e /\
     check_password_hash (User.password_hash user) pw = true /\
     session (login st sess req) = Some (User.id user)).
Proof.
  split; [apply login_store|apply login_succeeded].
Qed.

Lemma first_filter_by_email_unique (e : string) (us : list User.t) (u : User.t) :
  NoDup (map User.email us) -> In u us -> User.email u = e ->
  first (filter_by_email e us) = Some u.
Proof.
  unfold filter_by_email, first.
  induction us as [|v us IH]; simpl; intros Hnd Hin He; [contradiction|].
  inversion Hnd as [|? ? Hv Hnd']; subst.
  destruct Hin as [->|Hin].
  - rewrite String.eqb_refl; reflexivity.
  - destruct (String.eqb (User.email v) (User.email u)) eqn:E.
    + apply String.eqb_eq in E.
      exfalso; apply Hv; rewrite E; apply in_map, Hin.
    + apply IH; [exact Hnd'|exact Hin|reflexivity].
Qed.

(** X12.  Login does not depend on the case of the e-mail: on a store
    with unique e-mails, an anonymous login submission that validates and
    whose e-mail lowercases to the stored e-mail of a user, with a password
    the user's hash verifies, logs that user in. *)
Theorem login_ignores_email_case (st : Store) (sess : Session) (req : Request)
    (user : User.t) (e pw : string) :
  NoDup (map User.email (users st)) ->
  current_user st sess = None ->
  method req = POST ->
  validate (LoginForm_fields req (process_LoginForm (form req))) = true ->
  LoginForm.email (process_LoginForm (form req)) = Some e ->
  LoginForm.password (process_LoginForm (form req)) = Some pw ->
  In user (users st) ->
  User.email user = str_lower e ->
  check_password_hash (User.password_hash user) pw = true ->
  login st sess req =
    {| store := st; session := Some (User.id user);
       flashes := [("Logged in successfully.", "success")];
       response := Redirect EpHome |}.
Proof.
  intros Hnd Hcu Hm Hv He Hpw Hin Hmail Hcheck.
  unfold login; rewrite Hcu, Hm, Hv, He.
  rewrite (@first_filter_by_email_unique _ _ _ Hnd Hin Hmail), Hpw, Hcheck.
  reflexivity.
Qed.

(** ** What gets stored *)

Lemma Length_max_pass (max : Z) (s : string) :
  (0 <= max)%Z -> Length (-1) max (Some s) = Pass ->
  (Z.of_nat (String.length s) <= max)%Z.
Proof.
  unfold Length; intros Hmax H.
  destruct (_ && _)%bool eqn:E; [|discriminate].
  apply andb_prop in E; destruct E as [_ E].
  apply orb_prop in E; destruct E as [E|E]; [apply Z.eqb_eq in E|apply Z.leb_le in E];
    lia.
Qed.

Lemma DataRequired_nonempty (s : string) :
  DataRequired (Some s) = Pass -> s <> "" /\ str_strip s <> "".
Proof.
  unfold DataRequired.
  destruct (negb (String.eqb s "") && negb (String.eqb (str_strip s) ""))%bool
    eqn:E; [|discriminate].
  apply andb_prop in E; destruct E as [E1 E2].
  apply negb_true_iff in E1, E2.
  apply String.eqb_neq in E1, E2; auto.
Qed.

(** X13.  Only a form that meets every constraint creates an account: a
    registration that is accepted had a non-blank name and a syntactically
    valid e-mail of at most 120 characters each, a password of at least 6
    characters and an equal confirmation; the one user it adds has a fresh
    id, the name as submitted, the e-mail lowercased and the hash of the
    password, and the activity table is untouched. *)
Theorem accepted_registration_is_valid (st : Store) (sess : Session)
    (req : Request) :
  flashes (register st sess req) = [("Welcome! Account created.", "success")] ->
  exists name e pw u,
    RegisterForm.name (process_RegisterForm (form req)) = Some name /\
    RegisterForm.email (process_RegisterForm (form req)) = Some e /\
    RegisterForm.password (process_RegisterForm (form req)) = Some pw /\
    RegisterForm.confirm (process_RegisterForm (form req)) = Some pw /\
    (name <> "" /\ str_strip name <> "" /\ (String.length name <= 120)%nat) /\
    (validate_email e = true /\ (String.length e <= 120)%nat) /\
    (6 <= String.length pw)%nat /\
    users (store (register st sess req)) = (users st ++ [u])%list /\
    activities (store (register st sess req)) = activities st /\
    ~ In (User.id u) (map User.id (users st)) /\
    User.name u = name /\
    User.email u = str_lower e /\
    User.password_hash u = generate_password_hash (salt req) pw.
Proof.
  intros Hacc.
  destruct (register_accepted _ _ _ Hacc)
    as (e & name & pw & Hv & He & Hname & Hpw & _ & Hout).
  unfold RegisterForm_fields in Hv.
  repeat rewrite validate_cons in Hv.
  destruct Hv as (Vname & Vemail & Vpass & Vconf & _).
  unfold field_validate in Vname, Vemail, Vpass, Vconf.
  apply run_validation_chain_nil in Vname, Vemail, Vpass, Vconf.
  destruct Vname as [_ Vname], Vemail as [_ Vemail],
           Vpass as [_ Vpass], Vconf as [_ Vconf].
  rewrite Hname in Vname; rewrite He in Vemail.
  rewrite Hpw in Vpass, Vconf.
  inversion Vname as [|? ? Vn1 Vn']; inversion Vn' as [|? ? Vn2 _]; subst.
  inversion Vemail as [|? ? _ Ve']; inversion Ve' as [|? ? Ve2 Ve''];
    inversion Ve'' as [|? ? Ve3 _]; subst.
  inversion Vpass as [|? ? _ Vp']; inversion Vp' as [|? ? Vp2 _]; subst.
  inversion Vconf as [|? ? _ Vc']; inversion Vc' as [|? ? Vc2 _]; subst.
  exists name, e, pw.
  rewrite Hout; cbv zeta; cbn [store users activities].
  eexists; split; [exact Hname|]; split; [exact He|]; split; [exact Hpw|].
  split.
  { unfold EqualTo in Vc2.
    destruct (RegisterForm.confirm _) as [c|]; simpl in Vc2; [|discriminate].
    destruct (String.eqb c pw) eqn:E; [|discriminate].
    apply String.eqb_eq in E; rewrite E; reflexivity. }
  split.
  { destruct (DataRequired_nonempty _ Vn1) as [H1 H2].
    apply Length_max_pass in Vn2; [|lia].
    repeat split; try assumption; lia. }
  split.
  { apply Length_max_pass in Ve3; [|lia].
    unfold Email in Ve2.
    destruct (validate_email e); [|discriminate].
    split; [reflexivity|lia]. }
  split.
  { unfold Length in Vp2.
    destruct (_ && _)%bool eqn:E; [|discriminate].
    apply andb_prop in E; destruct E as [E _]; apply Z.leb_le in E; lia. }
  split; [reflexivity|]; split; [reflexivity|].
  split; [apply next_id_fresh|].
  repeat split.
Qed.

End Access.

Section Posts.
Context `{PF : Platform}.

(** ** A post and where it shows *)

(** X14.  A post that is accepted adds one activity and nothing else: it
    belongs to the logged-in user, carries the time of the request, a fresh
    id and a title of at most 200 characters that is not blank (not empty,
    and not empty once surrounding whitespace is stripped); the session is
    kept; and from then on [/me] lists it for its owner, while the owner's
    profile page lists it exactly when it is public. *)
Theorem posted_activity_is_owned_and_listed (st : Store) (sess : Session)
    (req : Request) :
  flashes (create st sess req) = [("Activity posted.", "success")] ->
  exists user act,
    current_user st sess = Some user /\
    users (store (create st sess req)) = users st /\
    activities (store (create st sess req)) = (activities st ++ [act])%list /\
    session (create st sess req) = sess /\
    Activity.user_id act = User.id user /\
    Activity.created_at act = now req /\
    ~ In (Activity.id act) (map Activity.id (activities st)) /\
    (Activity.title act <> "" /\ str_strip (Activity.title act) <> "" /\
     (String.length (Activity.title act) <= 200)%nat) /\
    (exists mine,
        response (me (store (create st sess req)) (session (create st sess req)))
          = RenderMe mine /\ In act mine) /\
    (exists posts,
        profile (store (create st sess req)) (User.id user)
          = RenderProfile user posts /\
        (In act posts <-> Activity.is_public act = true)).
Proof.
  intros Hposted.
  destruct (create_posted _ _ _ Hposted) as (user & title & Hcu & Hv & Ht & Hout).
  assert (Hget : get_user st (User.id user) = Some user).
  { unfold current_user in Hcu; destruct sess as [uid|]; [|discriminate].
    pose proof (get_user_In _ _ Hcu) as [_ Hid]; rewrite Hid; exact Hcu. }
  unfold ActivityForm_fields in Hv.
  rewrite validate_cons in Hv; destruct Hv as [Vtitle _].
  unfold field_validate in Vtitle.
  apply run_validation_chain_nil in Vtitle; destruct Vtitle as [_ Vtitle].
  rewrite Ht in Vtitle.
  inversion Vtitle as [|? ? Vt1 Vt']; inversion Vt' as [|? ? Vt2 _]; subst.
  exists user; rewrite Hout; cbv zeta; cbn [store session users activities].
  eexists; split; [exact Hcu|].
  split; [reflexivity|]; split; [reflexivity|]; split; [reflexivity|].
  cbn [Activity.user_id Activity.created_at Activity.id Activity.title
       Activity.is_public].
  split; [reflexivity|]; split; [reflexivity|].
  split; [apply next_id_fresh|].
  split.
  { destruct (DataRequired_nonempty _ Vt1) as [H1 H2].
    apply Length_max_pass in Vt2; [|lia].
    split; [exact H1|]; split; [exact H2|lia]. }
  split.
  - unfold me.
    replace (current_user _ sess) with (Some user)
      by (symmetry; destruct sess; exact Hcu).
    cbn [response]; eexists; split; [reflexivity|].
    unfold my_activities; cbn [activities].
    apply (proj2 (order_by_In _ _)), filter_by_user_In; split.
    + apply in_or_app; right; left; reflexivity.
    + reflexivity.
  - unfold profile.
    replace (get_user _ (User.id user)) with (Some user)
      by (symmetry; exact Hget).
    eexists; split; [reflexivity|].
    unfold profile_posts; cbn [activities].
    rewrite order_by_In, filter_by_public_In, filter_by_user_In.
    cbn [Activity.is_public Activity.user_id].
    split; [tauto|].
    intros Hpub; repeat split; try assumption.
    apply in_or_app; right; left; reflexivity.
Qed.

Lemma order_by_snoc_newest (a : Activity.t) (l : list Activity.t) :
  (forall b, In b l -> (Activity.created_at b < Activity.created_at a)%Z) ->
  order_by_created_at_desc (l ++ [a]) = a :: order_by_created_at_desc l.
Proof.
  induction l as [|b l IH]; intros H; simpl; [reflexivity|].
  rewrite IH by (intros c Hc; apply H; right; exact Hc).
  simpl.
  pose proof (H b (or_introl eq_refl)) as Hb.
  destruct (Activity.created_at a <=? Activity.created_at b)%Z eqn:E;
    [apply Z.leb_le in E; lia|reflexivity].
Qed.

(** X15.  A public post that is newer than everything stored goes to the
    top: after it is accepted, the home page renders the new activity
    first and the rows of the API feed start with it, in whatever order
    the database would return older rows of equal time.  If moreover the
    public activities stored before have pairwise different creation
    times, what follows the new activity is the first 49 of the feed
    before on the home page, and the first 99 of the rows before in the
    API feed. *)
Theorem new_public_post_heads_the_feeds (st : Store) (sess : Session)
    (req : Request) :
  flashes (create st sess req) = [("Activity posted.", "success")] ->
  boolean_field (getlist "is_public" (form req)) = true ->
  (forall b, In b (activities st) -> (Activity.created_at b < now req)%Z) ->
  exists act rest_home rest_api,
    activities (store (create st sess req)) = (activities st ++ [act])%list /\
    Activity.created_at act = now req /\
    home (store (create st sess req)) = RenderHome (act :: rest_home) /\
    api_feed_items (store (create st sess req)) = act :: rest_api /\
    (forall b, In b rest_home \/ In b rest_api ->
               (Activity.created_at b < Activity.created_at act)%Z) /\
    (NoDup (map Activity.created_at (filter_by_public (activities st))) ->
     forall rows,
       Permutation rows (filter_by_public (activities st)) ->
       sorted_desc rows ->
       rest_home = limit 49 rows /\ rest_api = limit 99 rows).
Proof.
  intros Hposted Hpub Hnew.
  destruct (create_posted _ _ _ Hposted) as (user & title & _ & _ & _ & Hout).
  rewrite Hout; cbv zeta; cbn [store activities].
  eexists.
  exists (limit 49 (order_by_created_at_desc (filter_by_public (activities st)))),
         (limit 99 (order_by_created_at_desc (filter_by_public (activities st)))).
  split; [reflexivity|].
  split; [reflexivity|].
  assert (Hold : forall b,
    In b (filter_by_public (activities st)) ->
    (Activity.created_at b < now req)%Z).
  { intros b Hb; apply filter_by_public_In in Hb; destruct Hb as [Hb _].
    apply Hnew, Hb. }
  split; [|split; [|split]].
  - unfold home, home_feed, limit; cbn [activities].
    unfold filter_by_public at 1; rewrite filter_app; cbn [filter].
    cbn [Activity.is_public process_ActivityForm ActivityForm.is_public].
    rewrite Hpub.
    fold (filter_by_public (activities st)).
    rewrite order_by_snoc_newest by (cbn [Activity.created_at]; exact Hold).
    reflexivity.
  - unfold api_feed_items, limit; cbn [activities].
    unfold filter_by_public at 1; rewrite filter_app; cbn [filter].
    cbn [Activity.is_public process_ActivityForm ActivityForm.is_public].
    rewrite Hpub.
    fold (filter_by_public (activities st)).
    rewrite order_by_snoc_newest by (cbn [Activity.created_at]; exact Hold).
    reflexivity.
  - cbn [Activity.created_at].
    intros b [Hb|Hb]; apply limit_In in Hb;
      apply (proj1 (order_by_In _ _)) in Hb; apply Hold, Hb.
  - intros Hnd rows Hp Hs.
    rewrite (order_by_determined Hnd Hp Hs); split; reflexivity.
Qed.

(** ** Requests that store nothing *)

(** X16.  A GET never writes: [/register], [/login] and [/create] leave
    the store and the session exactly as they were when the request is a
    GET, whatever it carries. *)
Theorem get_is_safe (st : Store) (sess : Session) (req : Request) :
  method req = GET ->
  (store (register st sess req) = st /\ session (register st sess req) = sess) /\
  (store (login st sess req) = st /\ session (login st sess req) = sess) /\
  (store (create st sess req) = st /\ session (create st sess req) = sess).
Proof.
  intros Hm; unfold register, login, create, unauthorized; rewrite Hm.
  destruct (current_user st sess); repeat split.
Qed.

(** X17.  A post without a title is refused: when the title is missing
    or empty, the logged-in user gets the form back with
    "This field is required." on the title, and nothing is stored. *)
Theorem create_requires_title (st : Store) (sess : Session) (req : Request)
    (user : User.t) :
  current_user st sess = Some user ->
  method req = POST ->
  string_field (getlist "title" (form req)) = None \/
  string_field (getlist "title" (form req)) = Some "" ->
  store (create st sess req) = st /\
  exists errors,
    response (create st sess req) = RenderCreate errors /\
    In ("title", [ErrRequired]) errors.
Proof.
  intros Hcu Hm Htitle.
  assert (Hin : In ("title", [ErrRequired])
                  (ActivityForm_fields req (process_ActivityForm (form req)))).
  { unfold ActivityForm_fields, process_ActivityForm; cbn [ActivityForm.title].
    left; f_equal.
    destruct Htitle as [-> | ->]; reflexivity. }
  assert (Hv : validate (ActivityForm_fields req (process_ActivityForm (form req)))
               = false).
  { unfold validate.
    destruct (forallb _ _) eqn:E; [|reflexivity].
    rewrite forallb_forall in E; apply E in Hin; discriminate. }
  unfold create; rewrite Hcu, Hm, Hv; cbn [store response].
  split; [reflexivity|].
  eexists; split; [reflexivity|].
  unfold form_errors; apply filter_In; split; [exact Hin|reflexivity].
Qed.

End Posts.

(** * The handlers at work on the small platform *)

#[local] Existing Instance Demo.platform.

(** Ann's private note is in neither public listing of [Demo.st], and
    [/me] shows it to her. *)
Lemma private_activity_hidden_demo :
  Activity.is_public Demo.note = false /\
  ~ In Demo.note (api_feed_items Demo.st) /\
  exists mine,
    response (me Demo.st (Some 1%Z)) = RenderMe mine /\ In Demo.note mine.
Proof.
  split; [reflexivity|].
  destruct (private_activity_hidden Demo.st Demo.note eq_refl)
    as (_ & Hapi & _ & _ & Hme).
  split; [exact Hapi|].
  apply (Hme (Some 1%Z) Demo.ann); [reflexivity| |reflexivity].
  simpl; tauto.
Defined.

(** Three public posts of Ann, stored out of order, come back newest
    first on the home page, on [/me] and in the JSON array. *)
Lemma feeds_newest_first_demo :
  activities Demo.st3 = [Demo.swam; Demo.ran; Demo.read] /\
  (Activity.created_at Demo.ran < Activity.created_at Demo.swam)%Z /\
  (Activity.created_at Demo.swam < Activity.created_at Demo.read)%Z /\
  home Demo.st3 = RenderHome [Demo.read; Demo.swam; Demo.ran] /\
  response (me Demo.st3 (Some 1%Z)) = RenderMe [Demo.read; Demo.swam; Demo.ran] /\
  exists i1 i2 i3,
    api_feed Demo.st3 = Json [i3; i2; i1] /\
    feed_item Demo.st3 Demo.read = Some i3 /\
    feed_item Demo.st3 Demo.swam = Some i2 /\
    feed_item Demo.st3 Demo.ran = Some i1.
Proof.
  assert (H12 : (Activity.created_at Demo.ran < Activity.created_at Demo.swam)%Z)
    by (simpl; lia).
  assert (H23 : (Activity.created_at Demo.swam < Activity.created_at Demo.read)%Z)
    by (simpl; lia).
  split; [reflexivity|]; split; [exact H12|]; split; [exact H23|].
  destruct (feeds_newest_first Demo.st3) as (_ & _ & _ & H).
  apply (H Demo.ran Demo.swam Demo.read (Some 1%Z) Demo.ann);
    [apply perm_swap| |reflexivity|exact H12|exact H23].
  intros a [<-|[<-|[<-|[]]]]; split; reflexivity.
Defined.

(** Registering "Ann@X.com" where ann@x.com exists changes nothing and
    flashes the error. *)
Lemma register_duplicate_email_rejected_demo :
  In Demo.ann (users Demo.st) /\
  str_lower "Ann@X.com" = User.email Demo.ann /\
  store (register Demo.st None Demo.register_ann) = Demo.st /\
  session (register Demo.st None Demo.register_ann) = None /\
  flashes (register Demo.st None Demo.register_ann)
    = [("Email already registered.", "error")].
Proof.
  assert (Hin : In Demo.ann (users Demo.st)) by (left; reflexivity).
  split; [exact Hin|]; split; [reflexivity|].
  destruct (register_duplicate_email_rejected Demo.st None Demo.register_ann
              Demo.ann Hin eq_refl eq_refl) as (Hstore & Hsess & Herr).
  split; [exact Hstore|]; split; [exact Hsess|].
  exact (proj1 (Herr eq_refl eq_refl)).
Defined.

(** Carl registers where Ann already has an account, and logs in with
    what he typed. *)
Lemma registered_user_can_log_in_demo :
  users Demo.st = [Demo.ann] /\
  flashes (register Demo.st None Tour.register_carl)
    = [("Welcome! Account created.", "success")] /\
  exists user,
    users (store (register Demo.st None Tour.register_carl)) = [Demo.ann; user] /\
    User.email user = "carl@x.com" /\
    login (store (register Demo.st None Tour.register_carl)) None Tour.login_carl =
      {| store := store (register Demo.st None Tour.register_carl);
         session := Some (User.id user);
         flashes := [("Logged in successfully.", "success")];
         response := Redirect EpHome |}.
Proof.
  split; [reflexivity|].
  destruct (@registered_user_can_log_in Demo.platform Demo.st None
              Tour.register_carl "Carl@X.com" "letmein1"
              eq_refl eq_refl eq_refl eq_refl eq_refl)
    as (Hacc & _ & user & Husers & Hmail & _ & _ & _ & Hlogin).
  { intros u [<-|[]]; discriminate. }
  { reflexivity. }
  split; [exact Hacc|].
  exists user; split; [exact Husers|]; split; [exact Hmail|].
  exact (proj1 (Hlogin Tour.login_carl eq_refl eq_refl eq_refl eq_refl)).
Defined.

(** A wrong password and an unknown e-mail get the very same answer. *)
Lemma login_failure_generic_demo :
  login Demo.st None Demo.login_wrong_password =
    {| store := Demo.st; session := None;
       flashes := [("Invalid credentials.", "error")];
       response := RenderLogin [] |} /\
  login Demo.st None Demo.login_unknown_user =
    {| store := Demo.st; session := None;
       flashes := [("Invalid credentials.", "error")];
       response := RenderLogin [] |}.
Proof.
  split.
  - refine (proj1 (login_failure_generic Demo.st None Demo.login_wrong_password
                     eq_refl eq_refl eq_refl eq_refl eq_refl _)).
    right; exists Demo.ann; split; reflexivity.
  - refine (proj1 (login_failure_generic Demo.st None Demo.login_unknown_user
                     eq_refl eq_refl eq_refl eq_refl eq_refl _)).
    left; intros u [<-|[]]; discriminate.
Defined.

(** An anonymous post is sent to the login page and not stored. *)
Lemma create_requires_login_demo :
  current_user Demo.st None = None /\
  response (create Demo.st None Demo.create_unticked) = Redirect EpLogin /\
  store (create Demo.st None Demo.create_unticked) = Demo.st.
Proof.
  split; [reflexivity|].
  destruct (create_requires_login Demo.st None Demo.create_unticked eq_refl)
    as (Hresp & Hstore & _).
  split; [exact Hresp|exact Hstore].
Defined.

(** Logged in, Ann is sent home by both [/register] and [/login]. *)
Lemma authenticated_redirected_home_demo :
  current_user Demo.st (Some 1%Z) = Some Demo.ann /\
  register Demo.st (Some 1%Z) Demo.register_ann =
    {| store := Demo.st; session := Some 1%Z; flashes := [];
       response := Redirect EpHome |} /\
  login Demo.st (Some 1%Z) Demo.login_wrong_password =
    {| store := Demo.st; session := Some 1%Z; flashes := [];
       response := Redirect EpHome |}.
Proof.
  split; [reflexivity|].
  split.
  - exact (proj1 (authenticated_redirected_home Demo.st (Some 1%Z)
                    Demo.register_ann (user := Demo.ann) eq_refl)).
  - exact (proj2 (authenticated_redirected_home Demo.st (Some 1%Z)
                    Demo.login_wrong_password (user := Demo.ann) eq_refl)).
Defined.

(** Empty coordinate inputs: the post is refused and nothing is stored. *)
Lemma create_rejects_empty_coordinate_demo :
  py_float "" = None /\
  store (create Demo.st (Some 1%Z) Demo.create_blank_coordinates) = Demo.st /\
  response (create Demo.st (Some 1%Z) Demo.create_blank_coordinates) =
    RenderCreate [("latitude", [ErrFloat]); ("longitude", [ErrFloat])].
Proof.
  split; [reflexivity|].
  split; [|reflexivity].
  exact (proj1 (create_rejects_empty_coordinate Demo.st (Some 1%Z)
                  Demo.create_blank_coordinates (user := Demo.ann)
                  eq_refl eq_refl eq_refl (or_introl eq_refl))).
Defined.

(** Ticked or not, the stored flag is the checkbox. *)
Lemma create_visibility_from_checkbox_demo :
  boolean_field (getlist "is_public" (form Demo.create_unticked)) = false /\
  exists act,
    activities (store (create Demo.st (Some 1%Z) Demo.create_unticked))
      = (activities Demo.st ++ [act])%list /\
    Activity.is_public act = false.
Proof.
  split; [reflexivity|].
  destruct (create_visibility_from_checkbox Demo.st (Some 1%Z)
              Demo.create_unticked (user := Demo.ann) eq_refl eq_refl eq_refl)
    as (act & Hact & Hpub & _).
  exists act; split; [exact Hact|exact Hpub].
Defined.

(** C9 as stated fails: Ann posts without touching the checkbox, the form
    validates, and the post is stored with the visibility flag false. *)
Lemma create_unticked_stored_private :
  getlist "is_public" (form Demo.create_unticked) = [] /\
  validate (ActivityForm_fields Demo.create_unticked
              (process_ActivityForm (form Demo.create_unticked))) = true /\
  activities (store (create Demo.st (Some 1%Z) Demo.create_unticked))
    = [Demo.ran; Demo.note; Demo.activity 3 "Walked home" false 500] /\
  Activity.is_public (Demo.activity 3 "Walked home" false 500) = false.
Proof.
  repeat split.
Qed.

(** ** More of the server on the small platform *)

Lemma tour_store_ok : store_ok Tour.st.
Proof.
  unfold store_ok; cbn.
  split; [repeat constructor; simpl; intuition discriminate|].
  split; [repeat constructor; simpl; intuition discriminate|].
  split; [repeat constructor; simpl; intuition discriminate|].
  intros a [<-|[<-|[]]]; exists Demo.ann; split; auto.
Defined.

(** Bob logs in and posts; the store is consistent after each step. *)
Lemma store_stays_consistent_demo :
  store_ok Tour.st /\
  store_ok (store (dispatch (CallCreate Tour.create_public) Tour.st (Some 2%Z))) /\
  store_ok (serve [(None, CallLogin Tour.login_bob);
                   (Some 2%Z, CallCreate Tour.create_public)] Tour.st).
Proof.
  split; [exact tour_store_ok|].
  exact (store_stays_consistent
           [(None, CallLogin Tour.login_bob);
            (Some 2%Z, CallCreate Tour.create_public)]
           (CallCreate Tour.create_public) (Some 2%Z) tour_store_ok).
Defined.

(** The session Bob's login leaves names Bob. *)
Lemma sessions_stay_sound_demo :
  session_ok Tour.st None /\
  session (dispatch (CallLogin Tour.login_bob) Tour.st None) = Some 2%Z /\
  session_ok (store (dispatch (CallLogin Tour.login_bob) Tour.st None))
             (session (dispatch (CallLogin Tour.login_bob) Tour.st None)).
Proof.
  split; [exact I|]; split; [reflexivity|].
  exact (sessions_stay_sound (CallLogin Tour.login_bob) Tour.st None I).
Defined.

(** Of sixty public posts the home page shows fifty, and the oldest one,
    which it leaves out, is no newer than the newest one it shows. *)
Lemma home_feed_shows_newest_demo :
  List.length (home_feed Tour.crowd) = 50%nat /\
  In (Demo.activity 60 "Post" true 60) (home_feed Tour.crowd) /\
  In (Demo.activity 1 "Post" true 1) (activities Tour.crowd) /\
  (Activity.created_at (Demo.activity 1 "Post" true 1)
   <= Activity.created_at (Demo.activity 60 "Post" true 60))%Z.
Proof.
  assert (Ha : In (Demo.activity 60 "Post" true 60) (home_feed Tour.crowd))
    by (lazy - [Demo.platform]; left; reflexivity).
  assert (Hb : In (Demo.activity 1 "Post" true 1) (activities Tour.crowd))
    by (lazy - [Demo.platform]; left; reflexivity).
  split; [lazy - [Demo.platform]; reflexivity|].
  split; [exact Ha|]; split; [exact Hb|].
  apply (proj1 (home_feed_shows_newest Tour.crowd) _ _ Ha Hb eq_refl).
  intros H; apply (in_map Activity.id) in H.
  lazy - [Demo.platform] in H.
  repeat (destruct H as [H|H]; [discriminate H|]).
  exact H.
Defined.

(** Bob logs in typing his e-mail in capitals. *)
Lemma login_ignores_email_case_demo :
  LoginForm.email (process_LoginForm (form Tour.login_bob)) = Some "BOB@x.com" /\
  User.email Tour.bob = "bob@x.com" /\
  login Tour.st None Tour.login_bob =
    {| store := Tour.st; session := Some 2%Z;
       flashes := [("Logged in successfully.", "success")];
       response := Redirect EpHome |}.
Proof.
  split; [reflexivity|]; split; [reflexivity|].
  refine (@login_ignores_email_case Demo.platform Tour.st None Tour.login_bob
            Tour.bob "BOB@x.com" "hunter22"
            (proj1 (proj2 tour_store_ok))
            eq_refl eq_refl eq_refl eq_refl eq_refl _ eq_refl eq_refl).
  right; left; reflexivity.
Defined.

(** Ann's registration met the constraints: seven characters of password,
    and one user stored under the lowercased e-mail. *)
Lemma accepted_registration_is_valid_demo :
  flashes (register Demo.empty None Demo.register_ann)
    = [("Welcome! Account created.", "success")] /\
  exists pw u,
    RegisterForm.password (process_RegisterForm (form Demo.register_ann)) = Some pw /\
    (6 <= String.length pw)%nat /\
    users (store (register Demo.empty None Demo.register_ann)) = [u] /\
    User.email u = str_lower "Ann@X.com".
Proof.
  split; [reflexivity|].
  destruct (accepted_registration_is_valid Demo.empty None Demo.register_ann eq_refl)
    as (name & e & pw & u & _ & He & Hpw & _ & _ & _ & Hlen & Hus & _ & _ & _ & Hmail & _).
  exists pw, u.
  split; [exact Hpw|]; split; [exact Hlen|]; split; [exact Hus|].
  injection He as <-; exact Hmail.
Defined.

(** Ann posts "Cycled" in public: it is hers, and [/me] and her profile
    list it. *)
Lemma posted_activity_is_owned_and_listed_demo :
  flashes (create Tour.st (Some 1%Z) Tour.create_public)
    = [("Activity posted.", "success")] /\
  exists act,
    activities (store (create Tour.st (Some 1%Z) Tour.create_public))
      = [Demo.ran; Demo.note; act] /\
    Activity.user_id act = 1%Z /\
    exists posts,
      profile (store (create Tour.st (Some 1%Z) Tour.create_public)) 1%Z
        = RenderProfile Demo.ann posts /\
      (In act posts <-> Activity.is_public act = true).
Proof.
  split; [reflexivity|].
  destruct (posted_activity_is_owned_and_listed Tour.st (Some 1%Z)
              Tour.create_public eq_refl)
    as (user & act & Hcu & _ & Hacts & _ & Hown & _ & _ & _ & _ & Hprofile).
  injection Hcu as <-.
  exists act; split; [exact Hacts|]; split; [exact Hown|exact Hprofile].
Defined.

(** And it is the first entry of the home page, before Ann's older
    public post. *)
Lemma new_public_post_heads_the_feeds_demo :
  boolean_field (getlist "is_public" (form Tour.create_public)) = true /\
  exists act,
    activities (store (create Tour.st (Some 1%Z) Tour.create_public))
      = [Demo.ran; Demo.note; act] /\
    home (store (create Tour.st (Some 1%Z) Tour.create_public))
      = RenderHome [act; Demo.ran].
Proof.
  split; [reflexivity|].
  destruct (new_public_post_heads_the_feeds Tour.st (Some 1%Z)
              Tour.create_public eq_refl eq_refl)
    as (act & rest_home & rest_api & Hacts & _ & Hhome & _ & _ & Hrest).
  { intros b [<-|[<-|[]]]; simpl; lia. }
  exists act; split; [exact Hacts|].
  destruct (Hrest (NoDup_cons _ (fun H : In _ [] => H) (NoDup_nil _)) [Demo.ran])
    as [Hrh _].
  - apply Permutation_refl.
  - repeat constructor.
  - rewrite Hhome, Hrh; reflexivity.
Defined.

(** A GET of the three forms changes nothing. *)
Lemma get_is_safe_demo :
  method Tour.get = GET /\
  store (register Tour.st None Tour.get) = Tour.st /\
  store (login Tour.st None Tour.get) = Tour.st /\
  store (create Tour.st (Some 1%Z) Tour.get) = Tour.st.
Proof.
  split; [reflexivity|].
  destruct (get_is_safe Tour.st None Tour.get eq_refl) as ((Hr & _) & (Hl & _) & _).
  destruct (get_is_safe Tour.st (Some 1%Z) Tour.get eq_refl) as (_ & _ & (Hc & _)).
  split; [exact Hr|]; split; [exact Hl|exact Hc].
Defined.

(** A post with an empty title comes back with the error. *)
Lemma create_requires_title_demo :
  string_field (getlist "title" (form Tour.create_untitled)) = Some "" /\
  store (create Tour.st (Some 1%Z) Tour.create_untitled) = Tour.st /\
  response (create Tour.st (Some 1%Z) Tour.create_untitled)
    = RenderCreate [("title", [ErrRequired])].
Proof.
  split; [reflexivity|]; split; [|reflexivity].
  exact (proj1 (create_requires_title Tour.st (Some 1%Z) Tour.create_untitled
                  (user := Demo.ann) eq_refl eq_refl (or_intror eq_refl))).
Defined.


(** Three public posts with different times: the home page shows the
    start of what the API lists. *)
Lemma home_feed_prefix_of_api_demo :
  map Activity.created_at (filter_by_public (activities Demo.st3))
    = [300%Z; 100%Z; 400%Z] /\
  home Demo.st3 = RenderHome (limit 50 [Demo.read; Demo.swam; Demo.ran]) /\
  api_feed_items Demo.st3 = limit 100 [Demo.read; Demo.swam; Demo.ran].
Proof.
  split; [reflexivity|].
  refine (proj1 (home_feed_prefix_of_api Demo.st3 _)
            [Demo.read; Demo.swam; Demo.ran] _ _).
  - repeat constructor; simpl; intuition discriminate.
  - apply (Permutation_cons_append [Demo.swam; Demo.ran] Demo.read).
  - repeat constructor; simpl; lia.
Defined.
